(** * Gabriel server: token-gated relay between websocket clients and engines

    Shallow embedding of the two variants of the relay found in the
    repository:

    - [client_comm]       : src/client_comm.py  (one global token counter per
                            client, per-client result queue);
    - [websocket_server]  : src/src/gabriel_server/websocket_server.py
                            (one counter per filter, global dispatch).

    Python objects that are shared by reference (the per-client session
    objects) live in an explicit heap; the registry dictionaries hold
    references into it.  A coroutine is cut at its [await]s: every piece
    between two suspension points is one atomic state transformer, and the
    event loop interleaves these pieces. *)

From stdpp Require Import gmap strings list fin_maps.
From Stdlib Require Import ZArith Lia.

Local Open Scope Z_scope.

(** ** Python runtime: exceptions and stateful computations *)

Module Py.

(** The exceptions the two files can raise from their own statements. *)
Inductive exn : Type :=
| AttributeError   (* attribute access on None *)
| KeyError         (* d[k] or del d[k] with k missing *)
| NameError        (* evaluation of an unbound name *)
| Full             (* queue.Full, from put_nowait *)
| TypeError        (* a call whose arguments do not fit the signature *)
| DecodeError.     (* ParseFromString on bytes that are not a message *)

Inductive res (A : Type) : Type :=
| Val (a : A)
| Exc (e : exn).
Arguments Val {A} a.
Arguments Exc {A} e.

(** A statement run against a store [S]: it ends normally with a value or
    with an exception, and in both cases leaves a store behind. *)
Definition M (S A : Type) : Type := S -> res A * S.

Definition ret {S A} (a : A) : M S A := fun s => (Val a, s).

Definition bind {S A B} (m : M S A) (k : A -> M S B) : M S B :=
  fun s => match m s with
           | (Val a, s') => k a s'
           | (Exc e, s') => (Exc e, s')
           end.

Definition raise {S A} (e : exn) : M S A := fun s => (Exc e, s).

Definition gets {S A} (f : S -> A) : M S A := fun s => (Val (f s), s).

Definition modify {S} (f : S -> S) : M S unit := fun s => (Val tt, f s).

(** [try: m  except e: h] *)
Definition try_except {S A} (m : M S A) (e : exn) (h : M S A) : M S A :=
  fun s => match m s with
           | (Val a, s') => (Val a, s')
           | (Exc e', s') =>
               if match e, e' with
                  | AttributeError, AttributeError | KeyError, KeyError
                  | NameError, NameError | Full, Full
                  | TypeError, TypeError | DecodeError, DecodeError => true
                  | _, _ => false
                  end
               then h s' else (Exc e', s')
           end.

(** [for x in xs: body x] *)
Fixpoint for_each {S A} (xs : list A) (body : A -> M S unit) : M S unit :=
  match xs with
  | [] => ret tt
  | x :: xs' => bind (body x) (fun _ => for_each xs' body)
  end.

Definition state_after {S A} (m : M S A) (s : S) : S := snd (m s).
Definition result_of {S A} (m : M S A) (s : S) : res A := fst (m s).

End Py.

Import Py.

Notation "'do' x <- m ; k" := (bind m (fun x => k))
  (at level 10, x name, m at level 100, k at level 200,
   format "'[v' 'do'  x  <-  m ; '/' k ']'").
Notation "'do_' m ; k" := (bind m (fun _ => k))
  (at level 10, m at level 100, k at level 200,
   format "'[v' 'do_'  m ; '/' k ']'").

(** ** Data shared by the two variants *)

(** [websocket.remote_address]: the (host, port) pair of the peer. *)
Definition address : Type := string * Z.

(** A websocket connection object.  [ws_id] is the identity of the object,
    [remote_address] the attribute the code reads. *)
Record websocket : Type := { ws_id : nat; remote_address : address }.

#[global] Instance websocket_eq_dec : EqDecision websocket.
Proof. solve_decision. Defined.

(** References to heap-allocated session objects. *)
Definition loc : Type := nat.

(** Records of the [logging] module: level and format string. *)
Inductive level : Type := DEBUG | INFO | WARNING | ERROR.

#[global] Instance level_eq_dec : EqDecision level.
Proof. solve_decision. Defined.

Definition log_record : Type := level * string.

Definition warnings (l : list log_record) : nat :=
  length (filter (fun r => r.1 = WARNING) l).

(** Modelled from the spec: the status values of the generated protobuf
    module gabriel_pb2, which is not among the sources.  The names are the
    ones the two files and section 6 of the specification use; [SUCCESS] is
    the value a result of an engine carries. *)
Inductive status : Type :=
| SUCCESS
| NO_TOKENS
| QUEUE_FULL
| REQUESTED_ENGINE_NOT_AVAILABLE
| NO_ENGINE_FOR_FILTER_PASSED
| SERVER_DROPPED_FRAME
| WRONG_INPUT_FORMAT.

#[global] Instance status_eq_dec : EqDecision status.
Proof. solve_decision. Defined.

(** * Variant 1: src/client_comm.py *)

Module client_comm.

Definition PORT : Z := 9098.
Definition NUM_TOKENS : Z := 2.
Definition INPUT_QUEUE_MAXSIZE : Z := 2.

(** The protobuf messages, by the fields the code reads and writes.  A
    frame received from a client is taken in decoded form. *)
Record from_client : Type :=
  { frame_id : Z; engine_name : string; payload : string }.

Record to_from_engine : Type :=
  { host : string; port : Z; fc : from_client }.

Record content : Type :=
  { c_frame_id : Z; c_status : status; c_payload : string }.

Record to_client : Type :=
  { tc_content : content; tc_num_tokens : Z }.

(** Keys of the dictionary [self.clients].  A Python dict takes any
    hashable key: [handler] stores sessions under address tuples, and
    [consumer_handler] asks for an engine name, a string. *)
Inductive key : Type :=
| KAddr (a : address)
| KStr (name : string).

#[global] Instance key_eq_dec : EqDecision key.
Proof. solve_decision. Defined.

#[global] Instance key_countable : Countable key.
Proof.
  refine (inj_countable'
            (fun k => match k with KAddr a => inl a | KStr n => inr n end)
            (fun x => match x with inl a => KAddr a | inr n => KStr n end) _).
  by intros [].
Defined.

(** The SimpleNamespace built by [handler]; [result_queue] holds the
    items of the asyncio.Queue, oldest first. *)
Record client : Type := { result_queue : list content; tokens : Z }.

#[global] Instance client_inhabited : Inhabited client :=
  populate {| result_queue := []; tokens := 0 |}.

Record server : Type := {
  input_queue : list to_from_engine;   (* multiprocessing.Queue, oldest first *)
  input_queue_maxsize : Z;
  available_engines : gset string;
  num_tokens : Z;
  clients : gmap key loc;
  heap : gmap loc client;              (* the session objects *)
  sent : list (websocket * to_client); (* every websocket.send, in order *)
  log : list log_record                (* every logger call, in order *)
}.

Definition with_input_queue (q : list to_from_engine) (s : server) : server :=
  {| input_queue := q; input_queue_maxsize := input_queue_maxsize s;
     available_engines := available_engines s; num_tokens := num_tokens s;
     clients := clients s; heap := heap s; sent := sent s; log := log s |}.

Definition with_available_engines (e : gset string) (s : server) : server :=
  {| input_queue := input_queue s; input_queue_maxsize := input_queue_maxsize s;
     available_engines := e; num_tokens := num_tokens s;
     clients := clients s; heap := heap s; sent := sent s; log := log s |}.

Definition with_clients (m : gmap key loc) (s : server) : server :=
  {| input_queue := input_queue s; input_queue_maxsize := input_queue_maxsize s;
     available_engines := available_engines s; num_tokens := num_tokens s;
     clients := m; heap := heap s; sent := sent s; log := log s |}.

Definition with_heap (h : gmap loc client) (s : server) : server :=
  {| input_queue := input_queue s; input_queue_maxsize := input_queue_maxsize s;
     available_engines := available_engines s; num_tokens := num_tokens s;
     clients := clients s; heap := h; sent := sent s; log := log s |}.

Definition with_sent (l : list (websocket * to_client)) (s : server) : server :=
  {| input_queue := input_queue s; input_queue_maxsize := input_queue_maxsize s;
     available_engines := available_engines s; num_tokens := num_tokens s;
     clients := clients s; heap := heap s; sent := l; log := log s |}.

Definition with_log (l : list log_record) (s : server) : server :=
  {| input_queue := input_queue s; input_queue_maxsize := input_queue_maxsize s;
     available_engines := available_engines s; num_tokens := num_tokens s;
     clients := clients s; heap := heap s; sent := sent s; log := l |}.

(** [WebsocketServer.__init__] *)
Definition __init__ (input_queue_maxsize_ num_tokens_ : Z) : server :=
  {| input_queue := []; input_queue_maxsize := input_queue_maxsize_;
     available_engines := ∅; num_tokens := num_tokens_;
     clients := ∅; heap := ∅; sent := []; log := [] |}.

(** *** Primitive statements *)

Definition logger (lvl : level) (msg : string) : M server unit :=
  modify (fun s => with_log (log s ++ [(lvl, msg)]) s).

Definition websocket_send (ws : websocket) (m : to_client) : M server unit :=
  modify (fun s => with_sent (sent s ++ [(ws, m)]) s).

(** [client.tokens], for a reference held by a running coroutine.  Objects
    are never freed while referenced, so the lookup is total. *)
Definition get_tokens (c : loc) : M server Z :=
  gets (fun s => tokens (heap s !!! c)).

(** [client.tokens = f(client.tokens)] *)
Definition update_tokens (c : loc) (f : Z -> Z) : M server unit :=
  modify (fun s =>
    with_heap (alter (fun cl => {| result_queue := result_queue cl;
                                   tokens := f (tokens cl) |}) c (heap s)) s).

(** [multiprocessing.Queue(maxsize).put_nowait]: it raises [Full] when the
    queue holds [maxsize] items; a queue built with [maxsize <= 0] is
    bounded by the semaphore limit of the platform only, and is taken as
    unbounded. *)
Definition put_nowait (x : to_from_engine) : M server unit :=
  fun s =>
    if (0 <? input_queue_maxsize s)
       && (input_queue_maxsize s <=? Z.of_nat (length (input_queue s)))
    then (Exc Full, s)
    else (Val tt, with_input_queue (input_queue s ++ [x]) s).

(** *** Module-level helpers (lines 22-52) *)

Definition _send (ws : websocket) (m : to_client) (tokens_ : Z)
  : M server unit :=
  websocket_send ws {| tc_content := tc_content m; tc_num_tokens := tokens_ |}.

Definition _send_error (ws : websocket) (raw_input : from_client)
    (tokens_ : Z) (st : status) : M server unit :=
  _send ws {| tc_content := {| c_frame_id := frame_id raw_input;
                               c_status := st; c_payload := "" |};
              tc_num_tokens := 0 |} tokens_.

Definition _send_queue_full_message ws raw_input tokens_ : M server unit :=
  do_ logger WARNING "Queue full";
  _send_error ws raw_input tokens_ QUEUE_FULL.

Definition _send_no_tokens_message ws raw_input tokens_ : M server unit :=
  do_ logger ERROR "Client %s sending without tokens";
  _send_error ws raw_input tokens_ NO_TOKENS.

Definition _send_engine_not_available_message ws raw_input tokens_
  : M server unit :=
  do_ logger WARNING "Engine Not Available";
  _send_error ws raw_input tokens_ REQUESTED_ENGINE_NOT_AVAILABLE.

(** *** Methods of [WebsocketServer] *)

(** One turn of the loop [async for raw_input in websocket] of
    [consumer_handler] (lines 69-95).  No [await] separates the test of
    [client.tokens] from the statements it guards. *)
Definition consumer_handler_iter (ws : websocket) (client_ : loc)
    (raw_input : from_client) : M server unit :=
  let address_ := remote_address ws in
  do_ logger DEBUG "Received input from %s";
  do t <- get_tokens client_;
  if 0 <? t then
    try_except
      (let to_from_engine_ :=
         {| host := address_.1; port := address_.2; fc := raw_input |} in
       do known <- gets (fun s =>
                     bool_decide (is_Some (clients s !! KStr (engine_name raw_input))));
       if (known : bool) then
         do_ update_tokens client_ (fun t => t - 1);
         put_nowait to_from_engine_
       else
         do t <- get_tokens client_;
         _send_engine_not_available_message ws raw_input t)
      Full
      (do_ update_tokens client_ (fun t => t + 1);
       do t <- get_tokens client_;
       _send_queue_full_message ws raw_input t)
  else
    do t <- get_tokens client_;
    _send_no_tokens_message ws raw_input t.

(** [consumer_handler] on the frames a connection delivers, when nothing
    else runs in between. *)
Definition consumer_handler (ws : websocket) (client_ : loc)
    (frames : list from_client) : M server unit :=
  for_each frames (consumer_handler_iter ws client_).

(** One turn of the loop of [producer_handler] (lines 100-109).  With an
    empty queue [result_queue.get()] stays suspended: nothing happens. *)
Definition producer_handler_iter (ws : websocket) (client_ : loc)
  : M server unit :=
  do q <- gets (fun s => result_queue (heap s !!! client_));
  match q with
  | [] => ret tt
  | content_ :: rest =>
      do_ modify (fun s =>
            with_heap (alter (fun cl => {| result_queue := rest;
                                           tokens := tokens cl |})
                             client_ (heap s)) s);
      do_ update_tokens client_ (fun t => t + 1);
      do_ logger DEBUG "Sending to %s";
      do t <- get_tokens client_;
      _send ws {| tc_content := content_; tc_num_tokens := 0 |} t
  end.

(** [handler] up to the point where it waits for its two tasks
    (lines 112-130): the session object is allocated and stored. *)
Definition handler_enter (ws : websocket) : M server loc :=
  let address_ := remote_address ws in
  do_ logger INFO "New Client connected: %s";
  do n <- gets num_tokens;
  do client_ <- gets (fun s => fresh (dom (heap s)));
  do_ modify (fun s =>
        with_heap (<[client_ := {| result_queue := []; tokens := n |}]> (heap s)) s);
  do_ modify (fun s => with_clients (<[KAddr address_ := client_]> (clients s)) s);
  ret client_.

(** The [finally] block of [handler] (lines 134-135). *)
Definition handler_exit (ws : websocket) : M server unit :=
  let address_ := remote_address ws in
  do present <- gets (fun s => bool_decide (is_Some (clients s !! KAddr address_)));
  if (present : bool) then
    do_ modify (fun s => with_clients (delete (KAddr address_) (clients s)) s);
    logger INFO "Client disconnected: %s"
  else raise KeyError.

(** [queue_result] (lines 142-147).  [dict.get] answers [None] for a
    missing key, and the attribute [result_queue] is read from whatever
    it answers. *)
Definition queue_result (result : content) (address_ : address)
  : M server unit :=
  do found <- gets (fun s => clients s !! KAddr address_);
  do result_queue_ <-
    match found with
    | None => raise AttributeError            (* None.result_queue *)
    | Some c => ret (Some c)                  (* the queue of session c *)
    end;
  match result_queue_ with
  | None => logger WARNING "Result for nonexistant address %s"
  | Some c =>
      modify (fun s =>
        with_heap (alter (fun cl => {| result_queue := result_queue cl ++ [result];
                                       tokens := tokens cl |}) c (heap s)) s)
  end.

(** The engine process takes the oldest item of [input_queue]. *)
Definition engine_get : M server unit :=
  modify (fun s => with_input_queue (tail (input_queue s)) s).

(** *** The event loop

    Each event is one atomic piece of a coroutine, or an action of the
    hosting process.  [Frame] and [Deliver] belong to the two tasks that
    [handler] starts for a connection; they hold a reference to the
    session object of that connection. *)
Inductive event : Type :=
| Connect (ws : websocket)
| Frame (ws : websocket) (client_ : loc) (raw_input : from_client)
| Deliver (ws : websocket) (client_ : loc)
| SubmitResult (result : content) (address_ : address)
| Disconnect (ws : websocket)
| EngineGet.

Definition run (e : event) : M server unit :=
  match e with
  | Connect ws => do_ handler_enter ws; ret tt
  | Frame ws c raw_input => consumer_handler_iter ws c raw_input
  | Deliver ws c => producer_handler_iter ws c
  | SubmitResult result a => queue_result result a
  | Disconnect ws => handler_exit ws
  | EngineGet => engine_get
  end.

(** A task only ever holds a reference to an allocated session. *)
Definition enabled (e : event) (s : server) : Prop :=
  match e with
  | Frame _ c _ | Deliver _ c => is_Some (heap s !! c)
  | _ => True
  end.

(** An exception ends the coroutine that raised it; the loop goes on with
    the store it left. *)
Inductive reachable (maxsize n : Z) : server -> Prop :=
| reachable_init : reachable maxsize n (__init__ maxsize n)
| reachable_step s e :
    reachable maxsize n s -> enabled e s ->
    reachable maxsize n (state_after (run e) s).

(** *** Predicates on stores *)

(** No session holds a negative counter. *)
Definition tokens_ok (s : server) : Prop :=
  map_Forall (fun _ cl => 0 <= tokens cl) (heap s).

(** Every key of [self.clients] is an address. *)
Definition keys_are_addresses (s : server) : Prop :=
  forall name, clients s !! KStr name = None.

(** [put_nowait] would raise [Full]. *)
Definition input_queue_full (s : server) : Prop :=
  0 < input_queue_maxsize s /\
  input_queue_maxsize s <= Z.of_nat (length (input_queue s)).

(** The reply [_send_error] builds for [raw_input]. *)
Definition error_reply (raw_input : from_client) (st : status) (tokens_ : Z)
  : to_client :=
  {| tc_content := {| c_frame_id := frame_id raw_input; c_status := st;
                      c_payload := "" |};
     tc_num_tokens := tokens_ |}.

End client_comm.

(** * Variant 2: src/src/gabriel_server/websocket_server.py *)

Module websocket_server.

Record from_client : Type :=
  { frame_id : Z; filter_passed : string; payload : string }.

Record to_engine : Type :=
  { host : string; port : Z; fc : from_client }.

Record result_wrapper : Type :=
  { rw_frame_id : Z; rw_status : status;
    rw_filter_passed : string; rw_payload : string }.

Record from_engine : Type :=
  { fe_host : string; fe_port : Z; fe_result_wrapper : result_wrapper }.

(** A ToClient message carries a welcome message or a result wrapper. *)
Inductive to_client : Type :=
| Welcome (filters_consumed : list string) (num_tokens_per_filter : Z)
| Result (rw : result_wrapper).

(** A session object, by the two attributes [_consumer] and [_producer]
    read from it: [client.tokens_for_filter] and [client.websocket]. *)
Record client : Type :=
  { tokens_for_filter : gmap string Z; websocket_ : websocket }.

Record server : Type := {
  _port : Z;
  _num_tokens_per_filter : Z;
  _message_max_size : option Z;
  _clients : gmap address loc;
  _filters_consumed : gset string;
  heap : gmap loc client;               (* the session objects *)
  pending : gmap loc to_engine;         (* consumers suspended in _send_to_engine *)
  to_engines : list to_engine;          (* frames _send_to_engine accepted *)
  sent : list (websocket * to_client);  (* every websocket.send, in order *)
  log : list log_record                 (* every logger call, in order *)
}.

Definition with_clients (m : gmap address loc) (s : server) : server :=
  {| _port := _port s; _num_tokens_per_filter := _num_tokens_per_filter s;
     _message_max_size := _message_max_size s; _clients := m;
     _filters_consumed := _filters_consumed s; heap := heap s;
     pending := pending s; to_engines := to_engines s;
     sent := sent s; log := log s |}.

Definition with_filters_consumed (f : gset string) (s : server) : server :=
  {| _port := _port s; _num_tokens_per_filter := _num_tokens_per_filter s;
     _message_max_size := _message_max_size s; _clients := _clients s;
     _filters_consumed := f; heap := heap s;
     pending := pending s; to_engines := to_engines s;
     sent := sent s; log := log s |}.

Definition with_heap (h : gmap loc client) (s : server) : server :=
  {| _port := _port s; _num_tokens_per_filter := _num_tokens_per_filter s;
     _message_max_size := _message_max_size s; _clients := _clients s;
     _filters_consumed := _filters_consumed s; heap := h;
     pending := pending s; to_engines := to_engines s;
     sent := sent s; log := log s |}.

Definition with_pending (p : gmap loc to_engine) (s : server) : server :=
  {| _port := _port s; _num_tokens_per_filter := _num_tokens_per_filter s;
     _message_max_size := _message_max_size s; _clients := _clients s;
     _filters_consumed := _filters_consumed s; heap := heap s;
     pending := p; to_engines := to_engines s;
     sent := sent s; log := log s |}.

Definition with_to_engines (l : list to_engine) (s : server) : server :=
  {| _port := _port s; _num_tokens_per_filter := _num_tokens_per_filter s;
     _message_max_size := _message_max_size s; _clients := _clients s;
     _filters_consumed := _filters_consumed s; heap := heap s;
     pending := pending s; to_engines := l;
     sent := sent s; log := log s |}.

Definition with_sent (l : list (websocket * to_client)) (s : server) : server :=
  {| _port := _port s; _num_tokens_per_filter := _num_tokens_per_filter s;
     _message_max_size := _message_max_size s; _clients := _clients s;
     _filters_consumed := _filters_consumed s; heap := heap s;
     pending := pending s; to_engines := to_engines s;
     sent := l; log := log s |}.

Definition with_log (l : list log_record) (s : server) : server :=
  {| _port := _port s; _num_tokens_per_filter := _num_tokens_per_filter s;
     _message_max_size := _message_max_size s; _clients := _clients s;
     _filters_consumed := _filters_consumed s; heap := heap s;
     pending := pending s; to_engines := to_engines s;
     sent := sent s; log := l |}.

(** [WebsocketServer.__init__] *)
Definition __init__ (port_ num_tokens_per_filter_ : Z)
    (message_max_size_ : option Z) : server :=
  {| _port := port_; _num_tokens_per_filter := num_tokens_per_filter_;
     _message_max_size := message_max_size_; _clients := ∅;
     _filters_consumed := ∅; heap := ∅; pending := ∅; to_engines := [];
     sent := []; log := [] |}.

(** *** Primitive statements *)

Definition logger (lvl : level) (msg : string) : M server unit :=
  modify (fun s => with_log (log s ++ [(lvl, msg)]) s).

Definition websocket_send (ws : websocket) (m : to_client) : M server unit :=
  modify (fun s => with_sent (sent s ++ [(ws, m)]) s).

(** The counter of session [c] for filter [name], if its ledger has one. *)
Definition counter (s : server) (c : loc) (name : string) : option Z :=
  heap s !! c ≫= (fun cl => tokens_for_filter cl !! name).

(** [client.tokens_for_filter[name]] as an expression. *)
Definition ledger_get (c : loc) (name : string) : M server Z :=
  fun s => match counter s c name with
           | Some t => (Val t, s)
           | None => (Exc KeyError, s)
           end.

(** The session object with the counter of [name] set to [t]. *)
Definition set_counter (name : string) (t : Z) (cl : client) : client :=
  {| tokens_for_filter := <[name := t]> (tokens_for_filter cl);
     websocket_ := websocket_ cl |}.

(** [client.tokens_for_filter[name] = t] *)
Definition ledger_set (c : loc) (name : string) (t : Z) : M server unit :=
  modify (fun s => with_heap (alter (set_counter name t) c (heap s)) s).

(** [_send_error] (lines 21-25) *)
Definition _send_error (ws : websocket) (from_client_ : from_client)
    (st : status) : M server unit :=
  websocket_send ws
    (Result {| rw_frame_id := frame_id from_client_; rw_status := st;
               rw_filter_passed := ""; rw_payload := "" |}).

(** *** Methods of [WebsocketServer] *)

(** The parameters of [collections.namedtuple(typename, field_names, *,
    rename=False, defaults=None, module=None)]. *)
Definition namedtuple_parameters : list string :=
  ["typename"; "field_names"; "rename"; "defaults"; "module"].

(** Whether a call of [namedtuple] with [positional] positional arguments
    and the keyword arguments [keywords] fits its signature: every keyword
    names a parameter, and the two required parameters are given, by
    position or by name. *)
Definition namedtuple_accepts (positional : nat) (keywords : list string)
  : bool :=
  forallb (fun k => bool_decide (k ∈ namedtuple_parameters)) keywords
  && ((0 <? positional)%nat || bool_decide ("typename" ∈ keywords))
  && ((1 <? positional)%nat || bool_decide ("field_names" ∈ keywords)).

(** A call of [namedtuple]: Python binds the arguments before the body of
    the function runs, and raises TypeError when they do not fit. *)
Definition call_namedtuple (positional : nat) (keywords : list string)
  : M server unit :=
  if namedtuple_accepts positional keywords then ret tt else raise TypeError.

(** [_handler] up to the call of [_consumer] (lines 50-65).  The session
    object is asked of [namedtuple] with the two keyword arguments
    [tokens_for_filter] and [websocket] (lines 53-56); the statements that
    follow store it under the address and send the welcome message. *)
Definition _handler_enter (ws : websocket) : M server loc :=
  let address_ := remote_address ws in
  do_ logger INFO "New Client connected: %s";
  do n <- gets _num_tokens_per_filter;
  do fs <- gets _filters_consumed;
  do_ call_namedtuple 0 ["tokens_for_filter"; "websocket"];
  do client_ <- gets (fun s => fresh (dom (heap s)));
  do_ modify (fun s =>
        with_heap (<[client_ := {| tokens_for_filter := gset_to_gmap n fs;
                                   websocket_ := ws |}]> (heap s)) s);
  do_ modify (fun s => with_clients (<[address_ := client_]> (_clients s)) s);
  do fs' <- gets _filters_consumed;
  do n' <- gets _num_tokens_per_filter;
  do_ websocket_send ws (Welcome (elements fs') n');
  ret client_.

(** The [finally] block of [_handler] (lines 70-71). *)
Definition _handler_exit (ws : websocket) : M server unit :=
  let address_ := remote_address ws in
  do present <- gets (fun s => bool_decide (is_Some (_clients s !! address_)));
  if (present : bool) then
    do_ modify (fun s => with_clients (delete address_ (_clients s)) s);
    logger INFO "Client disconnected: %s"
  else raise KeyError.

(** One turn of the loop of [_consumer], from [websocket.recv()] to the
    call of [_send_to_engine] (lines 83-110).  [_send_to_engine] is
    abstract and awaited: the coroutine is suspended with its frame in
    hand until the transport answers. *)
Definition _consumer_recv (ws : websocket) (client_ : loc)
    (raw_input : from_client) : M server unit :=
  let address_ := remote_address ws in
  do_ logger DEBUG "Received input from %s";
  let to_engine_ :=
    {| host := address_.1; port := address_.2; fc := raw_input |} in
  let filter_passed_ := filter_passed (fc to_engine_) in
  do consumed <- gets (fun s => bool_decide (filter_passed_ ∈ _filters_consumed s));
  if negb consumed then
    do_ logger ERROR "No engines consume frames from %s";
    _send_error ws (fc to_engine_) NO_ENGINE_FOR_FILTER_PASSED
  else
    do t <- ledger_get client_ filter_passed_;
    if t <? 1 then
      do_ logger ERROR "Client %s sending output of filter %s without tokens";
      _send_error ws (fc to_engine_) NO_TOKENS
    else
      modify (fun s => with_pending (<[client_ := to_engine_]> (pending s)) s).

(** The rest of the turn, once [_send_to_engine] has answered
    [send_succeeded] (lines 110-118). *)
Definition _consumer_resume (ws : websocket) (client_ : loc)
    (send_succeeded : bool) : M server unit :=
  do suspended <- gets (fun s => pending s !! client_);
  match suspended with
  | None => ret tt
  | Some to_engine_ =>
      let filter_passed_ := filter_passed (fc to_engine_) in
      do_ modify (fun s => with_pending (delete client_ (pending s)) s);
      if negb send_succeeded then
        do_ logger ERROR "Send to engine(s) that consume %s failed";
        _send_error ws (fc to_engine_) SERVER_DROPPED_FRAME
      else
        do_ modify (fun s => with_to_engines (to_engines s ++ [to_engine_]) s);
        do t <- ledger_get client_ filter_passed_;
        ledger_set client_ filter_passed_ (t - 1)
  end.

(** A whole turn of the loop when the transport answers at once. *)
Definition _consumer_iter (ws : websocket) (client_ : loc)
    (raw_input : from_client) (send_succeeded : bool) : M server unit :=
  do_ _consumer_recv ws client_ raw_input;
  _consumer_resume ws client_ send_succeeded.

(** One turn of the loop of [_producer] for the message that
    [_recv_from_engine] returned (lines 124-140). *)
Definition _producer_iter (from_engine_ : from_engine) : M server unit :=
  let address_ := (fe_host from_engine_, fe_port from_engine_) in
  do found <- gets (fun s => _clients s !! address_);
  match found with
  | None => logger WARNING "Result for nonexistant address %s"
  | Some client_ =>
      let result_wrapper_ := fe_result_wrapper from_engine_ in
      do t <- ledger_get client_ (rw_filter_passed result_wrapper_);
      do_ ledger_set client_ (rw_filter_passed result_wrapper_) (t + 1);
      do_ logger DEBUG "Sending to %s";
      do cl <- gets (fun s => heap s !! client_);
      match cl with
      | Some cl => websocket_send (websocket_ cl) (Result result_wrapper_)
      | None => ret tt
      end
  end.

(** Names bound at the top level of the module: its imports, its two
    loggers, [_send_error] and the class. *)
Definition module_names : list string :=
  ["logging"; "asyncio"; "multiprocessing"; "queue"; "gabriel_pb2"; "Status";
   "websockets"; "ABC"; "abstractmethod"; "namedtuple"; "logger";
   "websockets_logger"; "_send_error"; "WebsocketServer"].

(** Evaluation of a name that is not a local of the method. *)
Definition load_global (name : string) : M server unit :=
  if bool_decide (name ∈ module_names) then ret tt else raise NameError.

(** [add_filter_consumed] (lines 149-160).  The loop header reads the
    name [clients], which is neither a local of the method nor a name of
    the module (the dictionary of the server is [self._clients]): the
    statement raises before the body of the loop runs. *)
Definition add_filter_consumed (filter_name : string) : M server unit :=
  do present <- gets (fun s => bool_decide (filter_name ∈ _filters_consumed s));
  if (present : bool) then ret tt
  else
    do_ modify (fun s =>
          with_filters_consumed ({[filter_name]} ∪ _filters_consumed s) s);
    load_global "clients".

(** [remove_filter_consumed] (lines 162-173), with the same loop header. *)
Definition remove_filter_consumed (filter_name : string) : M server unit :=
  do present <- gets (fun s => bool_decide (filter_name ∈ _filters_consumed s));
  if negb present then ret tt
  else
    do_ modify (fun s =>
          with_filters_consumed (_filters_consumed s ∖ {[filter_name]}) s);
    load_global "clients".

(** *** The event loop *)
Inductive event : Type :=
| Connect (ws : websocket)
| Recv (ws : websocket) (client_ : loc) (raw_input : from_client)
| Resume (ws : websocket) (client_ : loc) (send_succeeded : bool)
| Produce (from_engine_ : from_engine)
| Disconnect (ws : websocket)
| AddFilter (filter_name : string)
| RemoveFilter (filter_name : string).

Definition run (e : event) : M server unit :=
  match e with
  | Connect ws => do_ _handler_enter ws; ret tt
  | Recv ws c raw_input => _consumer_recv ws c raw_input
  | Resume ws c ok => _consumer_resume ws c ok
  | Produce from_engine_ => _producer_iter from_engine_
  | Disconnect ws => _handler_exit ws
  | AddFilter f => add_filter_consumed f
  | RemoveFilter f => remove_filter_consumed f
  end.

(** [_consumer] runs for an allocated session; it receives the next frame
    only when it is not suspended, and resumes only when it is. *)
Definition enabled (e : event) (s : server) : Prop :=
  match e with
  | Recv ws c _ =>
      websocket_ <$> heap s !! c = Some ws ∧ pending s !! c = None
  | Resume ws c _ =>
      websocket_ <$> heap s !! c = Some ws ∧ is_Some (pending s !! c)
  | _ => True
  end.

Inductive reachable (port_ n : Z) (mms : option Z) : server -> Prop :=
| reachable_init : reachable port_ n mms (__init__ port_ n mms)
| reachable_step s e :
    reachable port_ n mms s -> enabled e s ->
    reachable port_ n mms (state_after (run e) s).

(** *** Predicates on stores *)

(** No ledger holds a negative counter. *)
Definition tokens_ok (s : server) : Prop :=
  map_Forall (fun _ cl => map_Forall (fun _ t => 0 <= t) (tokens_for_filter cl))
             (heap s).


(** The reply [_send_error] builds for [raw_input]. *)
Definition error_reply (raw_input : from_client) (st : status) : to_client :=
  Result {| rw_frame_id := frame_id raw_input; rw_status := st;
            rw_filter_passed := ""; rw_payload := "" |}.

(** The welcome messages among the messages sent, with their
    connections. *)
Fixpoint welcomes (l : list (websocket * to_client))
  : list (websocket * list string * Z) :=
  match l with
  | [] => []
  | (ws, Welcome fs n) :: l' => (ws, fs, n) :: welcomes l'
  | (_, Result _) :: l' => welcomes l'
  end.

End websocket_server.

(** * Concrete runs

    Small stores and traces on which the two variants are evaluated. *)

Module scenario.

Definition alice : websocket :=
  {| ws_id := 1; remote_address := ("10.0.0.1"%string, 5000) |}.

(** A second connection that reports the same remote address. *)
Definition alice_again : websocket :=
  {| ws_id := 2; remote_address := ("10.0.0.1"%string, 5000) |}.

Module cc.
Import client_comm.

Definition frame (i : Z) (name : string) : from_client :=
  {| frame_id := i; engine_name := name; payload := "" |}.

(** A server with the default sizes and one connected client. *)
Definition connected : server :=
  state_after (run (Connect alice)) (__init__ INPUT_QUEUE_MAXSIZE NUM_TOKENS).

(** A server built with [num_tokens=0] and one connected client. *)
Definition connected_no_tokens : server :=
  state_after (run (Connect alice)) (__init__ INPUT_QUEUE_MAXSIZE 0).

(** A store in which the string ["face"] is a key of [self.clients] and
    the input queue holds as many items as its size allows. *)
Definition full_queue : server :=
  let item := {| host := "10.0.0.1"; port := 5000; fc := frame 0 "face" |} in
  {| input_queue := [item; item]; input_queue_maxsize := INPUT_QUEUE_MAXSIZE;
     available_engines := {["face"%string]}; num_tokens := NUM_TOKENS;
     clients := {[KStr "face" := 0%nat]};
     heap := {[0%nat := {| result_queue := []; tokens := 1 |}]};
     sent := []; log := [] |}.
End cc.

Module ws.
Import websocket_server.

Definition frame (i : Z) (name : string) : from_client :=
  {| frame_id := i; filter_passed := name; payload := "" |}.

Definition result_for (w : websocket) (i : Z) (name : string) : from_engine :=
  {| fe_host := (remote_address w).1; fe_port := (remote_address w).2;
     fe_result_wrapper := {| rw_frame_id := i; rw_status := SUCCESS;
                             rw_filter_passed := name; rw_payload := "" |} |}.



(** A store in which the filter ["faces"] is consumed and one session,
    holding two tokens for it, is registered under the address of
    [alice].  It is written out field by field: [_handler] raises before
    it stores a session, so no run of the server builds it. *)
Definition faces_then_connected : server :=
  {| _port := 9099; _num_tokens_per_filter := 2; _message_max_size := None;
     _clients := {[remote_address alice := 0%nat]};
     _filters_consumed := {["faces"%string]};
     heap := {[0%nat := {| tokens_for_filter := {["faces"%string := 2]};
                           websocket_ := alice |}]};
     pending := ∅; to_engines := []; sent := []; log := [] |}.

(** A store in which no filter is consumed and one session, with an empty
    ledger, is registered under the address of [alice]; written out field
    by field as well. *)
Definition connected : server :=
  {| _port := 9099; _num_tokens_per_filter := 2; _message_max_size := None;
     _clients := {[remote_address alice := 0%nat]};
     _filters_consumed := ∅;
     heap := {[0%nat := {| tokens_for_filter := ∅; websocket_ := alice |}]};
     pending := ∅; to_engines := []; sent := []; log := [] |}.

(** The session of [faces_then_connected] has sent a frame and its
    consumer waits for the transport. *)
Definition suspended : server :=
  state_after (run (Recv alice 0%nat (frame 7 "faces"))) faces_then_connected.
End ws.

End scenario.

(** * Whole coroutines

    The loops of the two files, run for a given number of turns or on a
    given list of frames while no other coroutine runs in between. *)

Module client_comm_runs.
Import client_comm.

(** [producer_handler] (lines 97-109) for [turns] turns of its loop. *)
Fixpoint producer_handler (ws : websocket) (client_ : loc) (turns : nat)
  : M server unit :=
  match turns with
  | O => ret tt
  | S k => do_ producer_handler_iter ws client_; producer_handler ws client_ k
  end.

(** [queue_result] (lines 142-147) called for each result of [results] in
    turn, with the same address. *)
Definition queue_results (results : list content) (address_ : address)
  : M server unit :=
  for_each results (fun r => queue_result r address_).

(** The messages that carry [results] in order, the first one reporting
    [t + 1] tokens, the next one [t + 2], and so on. *)
Fixpoint deliveries (ws : websocket) (t : Z) (results : list content)
  : list (websocket * to_client) :=
  match results with
  | [] => []
  | r :: rs =>
      (ws, {| tc_content := r; tc_num_tokens := t + 1 |})
      :: deliveries ws (t + 1) rs
  end.

(** The bytes a connection delivers, by what [ParseFromString] makes of
    them: [Some m] when they decode to the message [m], [None] when
    [ParseFromString] raises DecodeError. *)
Definition raw_bytes : Type := option from_client.

(** One turn of the loop of [consumer_handler] (lines 69-95) on the bytes
    received.  Bytes that decode are handled by [consumer_handler_iter].
    Bytes that do not are parsed at line 76, inside the [try] that catches
    [queue.Full] only, or, when the client has no token, at line 29 in
    [_send_error], after [_send_no_tokens_message] has logged the error. *)
Definition consumer_handler_turn (ws : websocket) (client_ : loc)
    (raw_input : raw_bytes) : M server unit :=
  match raw_input with
  | Some m => consumer_handler_iter ws client_ m
  | None =>
      do_ logger DEBUG "Received input from %s";
      do t <- get_tokens client_;
      if 0 <? t then
        try_except (raise DecodeError) Full
          (do_ update_tokens client_ (fun t => t + 1);
           do_ logger WARNING "Queue full";
           raise DecodeError)
      else
        do_ logger ERROR "Client %s sending without tokens";
        raise DecodeError
  end.

(** The store after the events [evs], run one after the other from [s].
    An exception ends the coroutine that raised it; the loop goes on. *)
Fixpoint exec (evs : list event) (s : server) : server :=
  match evs with
  | [] => s
  | e :: rest => exec rest (state_after (run e) s)
  end.

(** How each event of [evs] ended, in order. *)
Fixpoint outcomes (evs : list event) (s : server) : list (res unit) :=
  match evs with
  | [] => []
  | e :: rest => result_of (run e) s :: outcomes rest (state_after (run e) s)
  end.

(** The life of handlers in a trace.  [handler] registers its connection
    once and runs its [finally] block once: a [Connect] is for a websocket
    whose handler is not running, a [Disconnect] for one whose handler is.
    [live] holds the websockets between the two.  With [unique_addresses]
    the trace is moreover one in which no connection arrives from the
    address of a connection whose handler is still running. *)
Fixpoint handlers_ok (unique_addresses : bool) (live : list websocket)
    (evs : list event) : bool :=
  match evs with
  | [] => true
  | Connect ws :: rest =>
      negb (bool_decide (ws ∈ live))
      && (negb unique_addresses
          || negb (bool_decide (remote_address ws ∈ remote_address <$> live)))
      && handlers_ok unique_addresses (ws :: live) rest
  | Disconnect ws :: rest =>
      bool_decide (ws ∈ live)
      && handlers_ok unique_addresses (filter (fun w => w <> ws) live) rest
  | _ :: rest => handlers_ok unique_addresses live rest
  end.

(** The websockets whose handler is running after the events [evs]. *)
Fixpoint live_after (live : list websocket) (evs : list event)
  : list websocket :=
  match evs with
  | [] => live
  | Connect ws :: rest => live_after (ws :: live) rest
  | Disconnect ws :: rest => live_after (filter (fun w => w <> ws) live) rest
  | _ :: rest => live_after live rest
  end.

End client_comm_runs.

Module websocket_server_runs.
Import websocket_server.

(** [_consumer] (lines 73-120) on the frames a connection delivers before
    it closes, each given as the message [ParseFromString] reads from it
    (line 90).  Each frame comes with the answer [_send_to_engine] gives if
    it is asked; the loop ends normally when the connection closes, and an
    exception other than ConnectionClosed leaves the loop. *)
Definition _consumer (ws : websocket) (client_ : loc)
    (frames : list (from_client * bool)) : M server unit :=
  for_each frames (fun fr => _consumer_iter ws client_ fr.1 fr.2).

(** The envelope [_consumer] builds for a frame (lines 87-90). *)
Definition envelope (ws : websocket) (raw_input : from_client) : to_engine :=
  {| host := (remote_address ws).1; port := (remote_address ws).2;
     fc := raw_input |}.

End websocket_server_runs.

(** * Facts about variant 1 (client_comm) *)

Section client_comm_facts.

Import client_comm.

(** Unfolds the statements of a method down to the store. *)
Ltac cc_unfold :=
  unfold run, consumer_handler_iter, producer_handler_iter, handler_enter,
    handler_exit, queue_result, engine_get,
    _send_engine_not_available_message, _send_queue_full_message,
    _send_no_tokens_message, _send_error, _send, websocket_send, logger,
    get_tokens, update_tokens, put_nowait, error_reply,
    try_except, bind, gets, modify, ret, raise, state_after, result_of,
    with_sent, with_log, with_heap, with_clients, with_input_queue in *.


Lemma alter_alter_tokens (c : loc) (h : gmap loc client) :
  alter (fun cl => {| result_queue := result_queue cl; tokens := tokens cl + 1 |}) c
    (alter (fun cl => {| result_queue := result_queue cl; tokens := tokens cl - 1 |}) c h)
  = h.
Proof.
  apply map_eq. intros c'. destruct (decide (c = c')) as [<-|Hne].
  - rewrite !lookup_alter_eq. destruct (h !! c) as [[q t]|]; simpl; [|done].
    do 2 f_equal. lia.
  - by rewrite !lookup_alter_ne.
Qed.

(** What one turn of [consumer_handler] does, branch by branch. *)
Lemma consumer_no_tokens ws c raw s :
  tokens (heap s !!! c) <= 0 ->
  consumer_handler_iter ws c raw s =
    (Val tt,
     with_sent (sent s ++
         [(ws, error_reply raw NO_TOKENS (tokens (heap s !!! c)))])
       (with_log (log s ++ [(DEBUG, "Received input from %s"%string);
                            (ERROR, "Client %s sending without tokens"%string)]) s)).
Proof.
  intros Ht. cc_unfold. cbn.
  destruct (0 <? tokens (heap s !!! c)) eqn:E; [lia|].
  cbn. by rewrite <- app_assoc.
Qed.

Lemma consumer_engine_unknown ws c raw s :
  0 < tokens (heap s !!! c) ->
  clients s !! KStr (engine_name raw) = None ->
  consumer_handler_iter ws c raw s =
    (Val tt,
     with_sent (sent s ++
         [(ws, error_reply raw REQUESTED_ENGINE_NOT_AVAILABLE
                 (tokens (heap s !!! c)))])
       (with_log (log s ++ [(DEBUG, "Received input from %s"%string);
                            (WARNING, "Engine Not Available"%string)]) s)).
Proof.
  intros Ht Hk. cc_unfold. cbn.
  destruct (0 <? tokens (heap s !!! c)) eqn:E; [|lia].
  cbn. rewrite bool_decide_eq_false_2 by (rewrite Hk; by intros [? ?]).
  cbn. by rewrite <- app_assoc.
Qed.

Lemma consumer_queue_full ws c raw s :
  0 < tokens (heap s !!! c) ->
  is_Some (clients s !! KStr (engine_name raw)) ->
  input_queue_full s ->
  consumer_handler_iter ws c raw s =
    (Val tt,
     with_sent (sent s ++
         [(ws, error_reply raw QUEUE_FULL (tokens (heap s !!! c)))])
       (with_log (log s ++ [(DEBUG, "Received input from %s"%string);
                            (WARNING, "Queue full"%string)]) s)).
Proof.
  intros Ht Hk [Hm Hl]. cc_unfold. cbn.
  destruct (0 <? tokens (heap s !!! c)) eqn:E; [|lia].
  cbn. rewrite bool_decide_eq_true_2 by done. cbn.
  destruct (0 <? input_queue_maxsize s) eqn:E1; [|lia].
  destruct (input_queue_maxsize s <=? Z.of_nat (length (input_queue s))) eqn:E2; [|lia].
  cbn. rewrite alter_alter_tokens. by rewrite <- app_assoc.
Qed.

Lemma consumer_forwarded ws c raw s :
  0 < tokens (heap s !!! c) ->
  is_Some (clients s !! KStr (engine_name raw)) ->
  ~ input_queue_full s ->
  consumer_handler_iter ws c raw s =
    (Val tt,
     with_input_queue (input_queue s ++
         [{| host := (remote_address ws).1; port := (remote_address ws).2;
             fc := raw |}])
       (with_heap (alter (fun cl => {| result_queue := result_queue cl;
                                       tokens := tokens cl - 1 |}) c (heap s))
          (with_log (log s ++ [(DEBUG, "Received input from %s"%string)]) s))).
Proof.
  intros Ht Hk Hf. cc_unfold. cbn.
  destruct (0 <? tokens (heap s !!! c)) eqn:E; [|lia].
  cbn. rewrite bool_decide_eq_true_2 by done. cbn.
  destruct ((0 <? input_queue_maxsize s)
            && (input_queue_maxsize s <=? Z.of_nat (length (input_queue s)))) eqn:E1.
  - exfalso. apply Hf. apply andb_prop in E1 as [? ?]. split; lia.
  - done.
Qed.

(** The four branches cover every store. *)
Lemma consumer_cases c raw s :
  (tokens (heap s !!! c) <= 0) \/
  (0 < tokens (heap s !!! c) /\ clients s !! KStr (engine_name raw) = None) \/
  (0 < tokens (heap s !!! c) /\ is_Some (clients s !! KStr (engine_name raw))
     /\ input_queue_full s) \/
  (0 < tokens (heap s !!! c) /\ is_Some (clients s !! KStr (engine_name raw))
     /\ ~ input_queue_full s).
Proof.
  destruct (decide (0 < tokens (heap s !!! c))) as [Ht|Ht]; [|left; lia].
  right. destruct (clients s !! KStr (engine_name raw)) as [l|] eqn:Hk;
    [|left; done].
  right. unfold input_queue_full.
  destruct (decide (0 < input_queue_maxsize s
                    /\ input_queue_maxsize s <= Z.of_nat (length (input_queue s))));
    [left|right]; eauto.
Qed.

(** [handler_enter] allocates a fresh session and stores it. *)
Lemma handler_enter_eq ws s :
  handler_enter ws s =
    (Val (fresh (dom (heap s))),
     with_clients (<[KAddr (remote_address ws) := fresh (dom (heap s))]> (clients s))
       (with_heap (<[fresh (dom (heap s)) :=
                      {| result_queue := []; tokens := num_tokens s |}]> (heap s))
          (with_log (log s ++ [(INFO, "New Client connected: %s"%string)]) s))).
Proof. reflexivity. Qed.

Lemma handler_exit_registered ws s :
  is_Some (clients s !! KAddr (remote_address ws)) ->
  handler_exit ws s =
    (Val tt,
     with_log (log s ++ [(INFO, "Client disconnected: %s"%string)])
       (with_clients (delete (KAddr (remote_address ws)) (clients s)) s)).
Proof.
  intros H. cc_unfold. cbn. by rewrite bool_decide_eq_true_2.
Qed.

Lemma handler_exit_missing ws s :
  clients s !! KAddr (remote_address ws) = None ->
  handler_exit ws s = (Exc KeyError, s).
Proof.
  intros H. cc_unfold. cbn.
  rewrite bool_decide_eq_false_2; [done|]. rewrite H. by intros [? ?].
Qed.

Lemma queue_result_missing result a s :
  clients s !! KAddr a = None ->
  queue_result result a s = (Exc AttributeError, s).
Proof. intros H. cc_unfold. cbn. by rewrite H. Qed.

Lemma queue_result_registered result a c s :
  clients s !! KAddr a = Some c ->
  queue_result result a s =
    (Val tt,
     with_heap (alter (fun cl => {| result_queue := result_queue cl ++ [result];
                                    tokens := tokens cl |}) c (heap s)) s).
Proof. intros H. cc_unfold. cbn. by rewrite H. Qed.

Lemma consumer_clients ws c raw s :
  clients (state_after (consumer_handler_iter ws c raw) s) = clients s.
Proof.
  unfold state_after.
  destruct (consumer_cases c raw s) as [H|[[H1 H2]|[(H1&H2&H3)|(H1&H2&H3)]]].
  - by rewrite consumer_no_tokens.
  - by rewrite consumer_engine_unknown.
  - by rewrite consumer_queue_full.
  - by rewrite consumer_forwarded.
Qed.

(** *** Invariants of the event loop *)



Lemma run_keys_are_addresses e s :
  keys_are_addresses s -> keys_are_addresses (state_after (run e) s).
Proof.
  intros Hs name.
  destruct e as [ws|ws c raw|ws c|result a|ws|]; unfold state_after, run.
  - unfold bind. rewrite handler_enter_eq. cbn.
    rewrite lookup_insert_ne by done. apply Hs.
  - pose proof (consumer_clients ws c raw s) as Hc.
    unfold state_after in Hc. rewrite Hc. apply Hs.
  - cc_unfold. cbn. destruct (result_queue (heap s !!! c)); apply Hs.
  - destruct (clients s !! KAddr a) as [c|] eqn:Hk.
    + erewrite queue_result_registered by done. apply Hs.
    + rewrite queue_result_missing by done. apply Hs.
  - destruct (clients s !! KAddr (remote_address ws)) as [c|] eqn:Hk.
    + rewrite handler_exit_registered by done. cbn.
      rewrite lookup_delete_ne by done. apply Hs.
    + rewrite handler_exit_missing by done. apply Hs.
  - apply Hs.
Qed.



Lemma reachable_keys_are_addresses maxsize n s :
  reachable maxsize n s -> keys_are_addresses s.
Proof.
  induction 1 as [|s e _ IH _]; [by intros name|].
  by apply run_keys_are_addresses.
Qed.

End client_comm_facts.

(** * Facts about variant 2 (websocket_server) *)

Section websocket_server_facts.

Import websocket_server.

Ltac ws_unfold :=
  unfold run, _consumer_iter, _consumer_recv, _consumer_resume, _producer_iter,
    _handler_enter, _handler_exit, add_filter_consumed, remove_filter_consumed,
    load_global, _send_error, websocket_send, logger, ledger_get, ledger_set,
    error_reply,
    try_except, bind, gets, modify, ret, raise, state_after, result_of,
    with_sent, with_log, with_heap, with_clients, with_pending,
    with_to_engines, with_filters_consumed in *.

(** What [_consumer_recv] does, branch by branch. *)
Lemma recv_no_engine ws c raw s :
  filter_passed raw ∉ _filters_consumed s ->
  _consumer_recv ws c raw s =
    (Val tt,
     with_sent (sent s ++ [(ws, error_reply raw NO_ENGINE_FOR_FILTER_PASSED)])
       (with_log (log s ++ [(DEBUG, "Received input from %s"%string);
                            (ERROR, "No engines consume frames from %s"%string)]) s)).
Proof.
  intros Hf. ws_unfold. cbn. rewrite bool_decide_eq_false_2 by done.
  cbn. by rewrite <- app_assoc.
Qed.

Lemma recv_no_counter ws c raw s :
  filter_passed raw ∈ _filters_consumed s ->
  counter s c (filter_passed raw) = None ->
  _consumer_recv ws c raw s =
    (Exc KeyError,
     with_log (log s ++ [(DEBUG, "Received input from %s"%string)]) s).
Proof.
  intros Hf Hc. ws_unfold. cbn. rewrite bool_decide_eq_true_2 by done.
  cbn. unfold counter in *. cbn. by rewrite Hc.
Qed.

Lemma recv_no_tokens ws c raw s t :
  filter_passed raw ∈ _filters_consumed s ->
  counter s c (filter_passed raw) = Some t -> t < 1 ->
  _consumer_recv ws c raw s =
    (Val tt,
     with_sent (sent s ++ [(ws, error_reply raw NO_TOKENS)])
       (with_log (log s ++
          [(DEBUG, "Received input from %s"%string);
           (ERROR, "Client %s sending output of filter %s without tokens"%string)])
          s)).
Proof.
  intros Hf Hc Ht. ws_unfold. cbn. rewrite bool_decide_eq_true_2 by done.
  cbn. unfold counter in *. cbn. rewrite Hc.
  destruct (t <? 1) eqn:E; [|lia]. cbn. by rewrite <- app_assoc.
Qed.

Lemma recv_submits ws c raw s t :
  filter_passed raw ∈ _filters_consumed s ->
  counter s c (filter_passed raw) = Some t -> 1 <= t ->
  _consumer_recv ws c raw s =
    (Val tt,
     with_pending (<[c := {| host := (remote_address ws).1;
                             port := (remote_address ws).2; fc := raw |}]>
                     (pending s))
       (with_log (log s ++ [(DEBUG, "Received input from %s"%string)]) s)).
Proof.
  intros Hf Hc Ht. ws_unfold. cbn. rewrite bool_decide_eq_true_2 by done.
  cbn. unfold counter in *. cbn. rewrite Hc.
  destruct (t <? 1) eqn:E; [lia|]. done.
Qed.

Lemma recv_cases c raw s :
  (filter_passed raw ∉ _filters_consumed s) \/
  (filter_passed raw ∈ _filters_consumed s /\
     counter s c (filter_passed raw) = None) \/
  (exists t, filter_passed raw ∈ _filters_consumed s /\
     counter s c (filter_passed raw) = Some t /\ t < 1) \/
  (exists t, filter_passed raw ∈ _filters_consumed s /\
     counter s c (filter_passed raw) = Some t /\ 1 <= t).
Proof.
  destruct (decide (filter_passed raw ∈ _filters_consumed s)); [|by left].
  right. destruct (counter s c (filter_passed raw)) as [t|] eqn:E; [|by left].
  right. destruct (decide (t < 1)); [left|right]; exists t; repeat split; done || lia.
Qed.

(** What [_consumer_resume] does, branch by branch. *)
Lemma resume_not_suspended ws c ok s :
  pending s !! c = None -> _consumer_resume ws c ok s = (Val tt, s).
Proof. intros H. ws_unfold. cbn. by rewrite H. Qed.

Lemma resume_send_failed ws c te s :
  pending s !! c = Some te ->
  _consumer_resume ws c false s =
    (Val tt,
     with_sent (sent s ++ [(ws, error_reply (fc te) SERVER_DROPPED_FRAME)])
       (with_log (log s ++
          [(ERROR, "Send to engine(s) that consume %s failed"%string)])
          (with_pending (delete c (pending s)) s))).
Proof. intros H. ws_unfold. cbn. by rewrite H. Qed.

Lemma resume_send_succeeded ws c te t s :
  pending s !! c = Some te ->
  counter s c (filter_passed (fc te)) = Some t ->
  _consumer_resume ws c true s =
    (Val tt,
     with_heap (alter (set_counter (filter_passed (fc te)) (t - 1)) c (heap s))
       (with_to_engines (to_engines s ++ [te])
          (with_pending (delete c (pending s)) s))).
Proof.
  intros H Hc. ws_unfold. cbn. rewrite H. cbn.
  unfold counter in *. cbn. by rewrite Hc.
Qed.

Lemma resume_no_counter ws c te s :
  pending s !! c = Some te ->
  counter s c (filter_passed (fc te)) = None ->
  _consumer_resume ws c true s =
    (Exc KeyError,
     with_to_engines (to_engines s ++ [te])
       (with_pending (delete c (pending s)) s)).
Proof.
  intros H Hc. ws_unfold. cbn. rewrite H. cbn.
  unfold counter in *. cbn. by rewrite Hc.
Qed.

Lemma resume_cases c s :
  (pending s !! c = None) \/
  (exists te, pending s !! c = Some te /\
     counter s c (filter_passed (fc te)) = None) \/
  (exists te t, pending s !! c = Some te /\
     counter s c (filter_passed (fc te)) = Some t).
Proof.
  destruct (pending s !! c) as [te|] eqn:E; [|by left].
  right. destruct (counter s c (filter_passed (fc te))) as [t|] eqn:E';
    [right|left]; eauto.
Qed.

(** What [_producer_iter] does, branch by branch. *)
Lemma producer_missing fe s :
  _clients s !! (fe_host fe, fe_port fe) = None ->
  _producer_iter fe s =
    (Val tt,
     with_log (log s ++ [(WARNING, "Result for nonexistant address %s"%string)]) s).
Proof. intros H. ws_unfold. cbn. by rewrite H. Qed.

Lemma producer_no_counter fe c s :
  _clients s !! (fe_host fe, fe_port fe) = Some c ->
  counter s c (rw_filter_passed (fe_result_wrapper fe)) = None ->
  _producer_iter fe s = (Exc KeyError, s).
Proof.
  intros H Hc. ws_unfold. cbn. rewrite H. cbn. by rewrite Hc.
Qed.

Lemma producer_refund fe c cl t s :
  _clients s !! (fe_host fe, fe_port fe) = Some c ->
  heap s !! c = Some cl ->
  tokens_for_filter cl !! rw_filter_passed (fe_result_wrapper fe) = Some t ->
  _producer_iter fe s =
    (Val tt,
     with_sent (sent s ++ [(websocket_ cl, Result (fe_result_wrapper fe))])
       (with_log (log s ++ [(DEBUG, "Sending to %s"%string)])
          (with_heap
             (alter (set_counter (rw_filter_passed (fe_result_wrapper fe)) (t + 1))
                    c (heap s)) s))).
Proof.
  intros H Hcl Ht. ws_unfold. cbn. rewrite H. cbn.
  unfold counter. rewrite Hcl. cbn. rewrite Ht. cbn.
  rewrite lookup_alter_eq, Hcl. done.
Qed.

Lemma producer_cases fe s :
  (_clients s !! (fe_host fe, fe_port fe) = None) \/
  (exists c, _clients s !! (fe_host fe, fe_port fe) = Some c /\
     counter s c (rw_filter_passed (fe_result_wrapper fe)) = None) \/
  (exists c cl t, _clients s !! (fe_host fe, fe_port fe) = Some c /\
     heap s !! c = Some cl /\
     tokens_for_filter cl !! rw_filter_passed (fe_result_wrapper fe) = Some t).
Proof.
  destruct (_clients s !! (fe_host fe, fe_port fe)) as [c|] eqn:E; [|by left].
  right. unfold counter.
  destruct (heap s !! c) as [cl|] eqn:Hcl; cbn.
  - destruct (tokens_for_filter cl !! rw_filter_passed (fe_result_wrapper fe))
      as [t|] eqn:Ht.
    + right. by exists c, cl, t.
    + left. exists c. by rewrite Hcl.
  - left. exists c. by rewrite Hcl.
Qed.

(** The call of line 53 gives [namedtuple] neither of its two required
    arguments. *)
Lemma namedtuple_refuses_the_call :
  namedtuple_accepts 0 ["tokens_for_filter"; "websocket"] = false.
Proof. reflexivity. Qed.

(** [_handler_enter] logs the connection and ends with TypeError: nothing
    is allocated, stored or sent. *)
Lemma _handler_enter_eq ws s :
  _handler_enter ws s =
    (Exc TypeError,
     with_log (log s ++ [(INFO, "New Client connected: %s"%string)]) s).
Proof. reflexivity. Qed.

Lemma _handler_exit_registered ws s :
  is_Some (_clients s !! remote_address ws) ->
  _handler_exit ws s =
    (Val tt,
     with_log (log s ++ [(INFO, "Client disconnected: %s"%string)])
       (with_clients (delete (remote_address ws) (_clients s)) s)).
Proof. intros H. ws_unfold. cbn. by rewrite bool_decide_eq_true_2. Qed.

Lemma _handler_exit_missing ws s :
  _clients s !! remote_address ws = None ->
  _handler_exit ws s = (Exc KeyError, s).
Proof.
  intros H. ws_unfold. cbn.
  rewrite bool_decide_eq_false_2; [done|]. rewrite H. by intros [? ?].
Qed.

(** The name [clients] is not bound in the module. *)
Lemma load_global_clients s : load_global "clients" s = (Exc NameError, s).
Proof. reflexivity. Qed.

Lemma add_filter_consumed_known f s :
  f ∈ _filters_consumed s -> add_filter_consumed f s = (Val tt, s).
Proof. intros H. ws_unfold. cbn. by rewrite bool_decide_eq_true_2. Qed.

Lemma add_filter_consumed_new f s :
  f ∉ _filters_consumed s ->
  add_filter_consumed f s =
    (Exc NameError, with_filters_consumed ({[f]} ∪ _filters_consumed s) s).
Proof. intros H. ws_unfold. cbn. by rewrite bool_decide_eq_false_2. Qed.

Lemma remove_filter_consumed_unknown f s :
  f ∉ _filters_consumed s -> remove_filter_consumed f s = (Val tt, s).
Proof. intros H. ws_unfold. cbn. by rewrite bool_decide_eq_false_2. Qed.

Lemma remove_filter_consumed_known f s :
  f ∈ _filters_consumed s ->
  remove_filter_consumed f s =
    (Exc NameError, with_filters_consumed (_filters_consumed s ∖ {[f]}) s).
Proof. intros H. ws_unfold. cbn. by rewrite bool_decide_eq_true_2. Qed.

(** *** Invariants of the event loop *)

Lemma counter_alter_set (h : gmap loc client) (f : string) (t : Z)
    (c c' : loc) (f' : string) :
  alter (set_counter f t) c h !! c' ≫= (fun cl => tokens_for_filter cl !! f')
  = if decide (c = c' /\ f = f')
    then (fun _ => t) <$> h !! c
    else h !! c' ≫= (fun cl => tokens_for_filter cl !! f').
Proof.
  destruct (decide (c = c')) as [<-|Hc].
  - rewrite lookup_alter_eq. destruct (h !! c) as [cl|]; cbn;
      [|by case_decide].
    destruct (decide (f = f')) as [<-|Hf].
    + rewrite lookup_insert_eq. by rewrite decide_True.
    + rewrite lookup_insert_ne by done. rewrite decide_False; [done|].
      by intros [_ ?].
  - rewrite lookup_alter_ne by done. rewrite decide_False; [done|].
    by intros [? _].
Qed.



(** The filter operations leave every ledger as it is. *)
Lemma add_filter_consumed_heap f s :
  heap (state_after (add_filter_consumed f) s) = heap s.
Proof.
  unfold state_after. destruct (decide (f ∈ _filters_consumed s)).
  - by rewrite add_filter_consumed_known.
  - by rewrite add_filter_consumed_new.
Qed.

Lemma remove_filter_consumed_heap f s :
  heap (state_after (remove_filter_consumed f) s) = heap s.
Proof.
  unfold state_after. destruct (decide (f ∈ _filters_consumed s)).
  - by rewrite remove_filter_consumed_known.
  - by rewrite remove_filter_consumed_unknown.
Qed.




(** While no session is allocated or registered, no event allocates or
    registers one. *)
Lemma run_unregistered e s :
  _clients s = ∅ -> heap s = ∅ ->
  _clients (state_after (run e) s) = ∅ /\ heap (state_after (run e) s) = ∅.
Proof.
  intros Hk Hh.
  assert (forall c f, counter s c f = None) as Hnone.
  { intros c f. unfold counter. by rewrite Hh, lookup_empty. }
  destruct e as [ws|ws c raw|ws c ok|fe|ws|f|f]; unfold state_after, run.
  - unfold bind. by rewrite _handler_enter_eq.
  - destruct (recv_cases c raw s) as [H|[[H1 H2]|[(t&H1&H2&H3)|(t&H1&H2&H3)]]].
    + by rewrite recv_no_engine.
    + by rewrite recv_no_counter.
    + by erewrite recv_no_tokens.
    + by erewrite recv_submits.
  - destruct (resume_cases c s) as [H|[(te&H1&H2)|(te&t&H1&H2)]].
    + by rewrite resume_not_suspended.
    + destruct ok; [by erewrite resume_no_counter|by erewrite resume_send_failed].
    + by rewrite Hnone in H2.
  - rewrite producer_missing; [done|]. by rewrite Hk, lookup_empty.
  - rewrite _handler_exit_missing; [done|]. by rewrite Hk, lookup_empty.
  - destruct (decide (f ∈ _filters_consumed s)).
    + by rewrite add_filter_consumed_known.
    + by rewrite add_filter_consumed_new.
  - destruct (decide (f ∈ _filters_consumed s)).
    + by rewrite remove_filter_consumed_known.
    + by rewrite remove_filter_consumed_unknown.
Qed.

End websocket_server_facts.

(** * The claims of the specification *)



(** C2.  A failed submission costs no token.  In client_comm, when
    [put_nowait] raises [Full], the decrement made just before is undone:
    every session is as it was, nothing is queued, and the client is sent
    QUEUE_FULL with its unchanged count.  In websocket_server, no part of a
    turn whose [_send_to_engine] answers false touches a ledger: the turn
    ends normally, nothing is forwarded, and the client is sent
    SERVER_DROPPED_FRAME; this holds for the turn as a whole and for its
    second half taken alone, whatever ran while the consumer was
    suspended. *)
Theorem C2_failed_submission_keeps_tokens
    (s1 : client_comm.server) (ws1 : websocket) (c1 : loc)
    (raw1 : client_comm.from_client)
    (s2 : websocket_server.server) (ws2 : websocket) (c2 : loc)
    (raw2 : websocket_server.from_client) (t2 : Z)
    (Ht1 : 0 < client_comm.tokens (client_comm.heap s1 !!! c1))
    (Hk1 : is_Some (client_comm.clients s1
                      !! client_comm.KStr (client_comm.engine_name raw1)))
    (Hfull : client_comm.input_queue_full s1)
    (Hf2 : websocket_server.filter_passed raw2
             ∈ websocket_server._filters_consumed s2)
    (Hc2 : websocket_server.counter s2 c2 (websocket_server.filter_passed raw2)
           = Some t2)
    (Ht2 : 1 <= t2) :
  (let s1' := state_after (client_comm.consumer_handler_iter ws1 c1 raw1) s1 in
   result_of (client_comm.consumer_handler_iter ws1 c1 raw1) s1 = Val tt /\
   client_comm.heap s1' = client_comm.heap s1 /\
   client_comm.input_queue s1' = client_comm.input_queue s1 /\
   client_comm.sent s1' =
     client_comm.sent s1 ++
       [(ws1, client_comm.error_reply raw1 QUEUE_FULL
                (client_comm.tokens (client_comm.heap s1 !!! c1)))]) /\
  (let s2' := state_after (websocket_server._consumer_iter ws2 c2 raw2 false) s2 in
   result_of (websocket_server._consumer_iter ws2 c2 raw2 false) s2 = Val tt /\
   websocket_server.heap s2' = websocket_server.heap s2 /\
   websocket_server.counter s2' c2 (websocket_server.filter_passed raw2) = Some t2 /\
   websocket_server.to_engines s2' = websocket_server.to_engines s2 /\
   websocket_server.sent s2' =
     websocket_server.sent s2 ++
       [(ws2, websocket_server.error_reply raw2 SERVER_DROPPED_FRAME)]) /\
  (forall s ws c te,
     websocket_server.pending s !! c = Some te ->
     let s' := state_after (websocket_server._consumer_resume ws c false) s in
     result_of (websocket_server._consumer_resume ws c false) s = Val tt /\
     websocket_server.heap s' = websocket_server.heap s /\
     websocket_server.to_engines s' = websocket_server.to_engines s /\
     websocket_server.sent s' =
       websocket_server.sent s ++
         [(ws, websocket_server.error_reply (websocket_server.fc te)
                 SERVER_DROPPED_FRAME)]).
Proof.
  split; [|split].
  - unfold state_after, result_of. by rewrite consumer_queue_full.
  - unfold state_after, result_of, websocket_server._consumer_iter, bind.
    erewrite recv_submits by done.
    erewrite resume_send_failed by (cbn; apply lookup_insert_eq).
    cbn. rewrite <- Hc2. done.
  - intros s ws c te Hp. unfold state_after, result_of.
    by erewrite resume_send_failed.
Qed.

Lemma C2_witness :
  let s1 := scenario.cc.full_queue in
  let s2 := scenario.ws.faces_then_connected in
  client_comm.input_queue_full s1 /\
  client_comm.heap
    (state_after (client_comm.consumer_handler_iter
                    scenario.alice 0%nat (scenario.cc.frame 1 "face")) s1)
  = client_comm.heap s1 /\
  websocket_server.heap
    (state_after (websocket_server._consumer_iter
                    scenario.alice 0%nat (scenario.ws.frame 7 "faces") false) s2)
  = websocket_server.heap s2.
Proof.
  intros s1 s2.
  assert (client_comm.input_queue_full s1) as Hfull by (split; vm_compute; done).
  split; [exact Hfull|].
  destruct (C2_failed_submission_keeps_tokens
              s1 scenario.alice 0%nat (scenario.cc.frame 1 "face")
              s2 scenario.alice 0%nat (scenario.ws.frame 7 "faces") 2)
    as [(_ & Hh1 & _) [(_ & Hh2 & _) _]].
  - vm_compute. reflexivity.
  - vm_compute. eauto.
  - exact Hfull.
  - vm_compute. reflexivity.
  - vm_compute. reflexivity.
  - lia.
  - split; [exact Hh1|exact Hh2].
Defined.

(** C3.  A result for an address that is not registered.  [queue_result]
    of client_comm reads an attribute of the [None] that [dict.get]
    answered: the call ends with AttributeError and logs nothing, whatever
    the rest of the store.  The dispatch loop of websocket_server tests the
    answer of [dict.get] first: it logs one warning, ends normally and
    leaves every session, the registry and the sent messages as they
    were. *)
Theorem C3_result_for_unknown_address :
  (forall result a s,
     let s0 := client_comm.with_clients
                 (delete (client_comm.KAddr a) (client_comm.clients s)) s in
     client_comm.queue_result result a s0 = (Exc AttributeError, s0)) /\
  (forall fe s,
     let s0 := websocket_server.with_clients
                 (delete (websocket_server.fe_host fe, websocket_server.fe_port fe)
                         (websocket_server._clients s)) s in
     let s' := state_after (websocket_server._producer_iter fe) s0 in
     result_of (websocket_server._producer_iter fe) s0 = Val tt /\
     warnings (websocket_server.log s') = S (warnings (websocket_server.log s0)) /\
     websocket_server.heap s' = websocket_server.heap s0 /\
     websocket_server._clients s' = websocket_server._clients s0 /\
     websocket_server.sent s' = websocket_server.sent s0).
Proof.
  split.
  - intros result a s s0. apply queue_result_missing. cbn.
    apply lookup_delete_eq.
  - intros fe s s0 s'. unfold s', state_after, result_of.
    rewrite producer_missing by (cbn; apply lookup_delete_eq).
    cbn. repeat split. unfold warnings.
    rewrite filter_app, length_app.
    rewrite filter_cons_True by done. rewrite filter_nil. cbn.
    apply Nat.add_1_r.
Qed.

(** C4, as stated, fails in client_comm: the token test comes before the
    look-up of the engine name.  A client of a server built with
    [num_tokens=0] that names an engine outside [available_engines] is
    answered NO_TOKENS, because the reply does not come "regardless of the
    token count". *)
Lemma C4_counterexample :
  ~ (forall maxsize n s ws c raw,
       client_comm.reachable maxsize n s ->
       is_Some (client_comm.heap s !! c) ->
       client_comm.engine_name raw ∉ client_comm.available_engines s ->
       client_comm.sent (state_after (client_comm.consumer_handler_iter ws c raw) s)
       = client_comm.sent s ++
           [(ws, client_comm.error_reply raw REQUESTED_ENGINE_NOT_AVAILABLE
                   (client_comm.tokens (client_comm.heap s !!! c)))]).
Proof.
  intros H.
  specialize (H 2 0 scenario.cc.connected_no_tokens scenario.alice 0%nat
                (scenario.cc.frame 1 "faces")).
  assert (client_comm.reachable 2 0 scenario.cc.connected_no_tokens) as R.
  { apply client_comm.reachable_step; [apply client_comm.reachable_init|exact I]. }
  specialize (H R).
  assert (is_Some (client_comm.heap scenario.cc.connected_no_tokens !! 0%nat)) as A
    by (vm_compute; eauto).
  specialize (H A).
  assert (client_comm.engine_name (scenario.cc.frame 1 "faces")
            ∉ client_comm.available_engines scenario.cc.connected_no_tokens) as B
    by (cbn; apply not_elem_of_empty).
  specialize (H B). vm_compute in H. discriminate H.
Qed.

(** C4, amended.  A frame for a destination that is not registered is
    never forwarded and changes no counter.  In websocket_server the reply
    is NO_ENGINE_FOR_FILTER_PASSED whatever the counters of the client are.
    In client_comm the token test comes first: the reply is
    REQUESTED_ENGINE_NOT_AVAILABLE when the counter of the client is
    positive and NO_TOKENS when it is not. *)
Theorem C4_unregistered_destination_rejected
    (maxsize n : Z) (s1 : client_comm.server) (ws1 : websocket) (c1 : loc)
    (cl1 : client_comm.client) (raw1 : client_comm.from_client)
    (s2 : websocket_server.server) (ws2 : websocket) (c2 : loc)
    (raw2 : websocket_server.from_client)
    (R1 : client_comm.reachable maxsize n s1)
    (Hcl1 : client_comm.heap s1 !! c1 = Some cl1)
    (He1 : client_comm.engine_name raw1 ∉ client_comm.available_engines s1)
    (Hf2 : websocket_server.filter_passed raw2
             ∉ websocket_server._filters_consumed s2) :
  (let s1' := state_after (client_comm.consumer_handler_iter ws1 c1 raw1) s1 in
   result_of (client_comm.consumer_handler_iter ws1 c1 raw1) s1 = Val tt /\
   client_comm.sent s1' =
     client_comm.sent s1 ++
       [(ws1, client_comm.error_reply raw1
                (if 0 <? client_comm.tokens cl1
                 then REQUESTED_ENGINE_NOT_AVAILABLE else NO_TOKENS)
                (client_comm.tokens cl1))] /\
   client_comm.input_queue s1' = client_comm.input_queue s1 /\
   client_comm.heap s1' = client_comm.heap s1) /\
  (let s2' := state_after (websocket_server._consumer_recv ws2 c2 raw2) s2 in
   result_of (websocket_server._consumer_recv ws2 c2 raw2) s2 = Val tt /\
   websocket_server.sent s2' =
     websocket_server.sent s2 ++
       [(ws2, websocket_server.error_reply raw2 NO_ENGINE_FOR_FILTER_PASSED)] /\
   websocket_server.pending s2' = websocket_server.pending s2 /\
   websocket_server.to_engines s2' = websocket_server.to_engines s2 /\
   websocket_server.heap s2' = websocket_server.heap s2).
Proof.
  split.
  - unfold state_after, result_of.
    pose proof (lookup_total_correct _ _ _ Hcl1) as Htot.
    destruct (0 <? client_comm.tokens cl1) eqn:E.
    + rewrite consumer_engine_unknown.
      * by rewrite Htot.
      * rewrite Htot. lia.
      * by apply (reachable_keys_are_addresses maxsize n).
    + rewrite consumer_no_tokens by (rewrite Htot; lia). by rewrite Htot.
  - unfold state_after, result_of. by rewrite recv_no_engine.
Qed.

Lemma C4_witness :
  (client_comm.engine_name (scenario.cc.frame 1 "faces")
     ∉ client_comm.available_engines scenario.cc.connected) /\
  (websocket_server.filter_passed (scenario.ws.frame 1 "faces")
     ∉ websocket_server._filters_consumed scenario.ws.connected) /\
  client_comm.heap
    (state_after (client_comm.consumer_handler_iter
                    scenario.alice 0%nat (scenario.cc.frame 1 "faces"))
                 scenario.cc.connected)
  = client_comm.heap scenario.cc.connected /\
  websocket_server.heap
    (state_after (websocket_server._consumer_recv
                    scenario.alice 0%nat (scenario.ws.frame 1 "faces"))
                 scenario.ws.connected)
  = websocket_server.heap scenario.ws.connected.
Proof.
  assert (client_comm.engine_name (scenario.cc.frame 1 "faces")
            ∉ client_comm.available_engines scenario.cc.connected) as A
    by (cbn; apply not_elem_of_empty).
  assert (websocket_server.filter_passed (scenario.ws.frame 1 "faces")
            ∉ websocket_server._filters_consumed scenario.ws.connected) as B
    by (cbn; apply not_elem_of_empty).
  assert (client_comm.reachable 2 2 scenario.cc.connected) as R.
  { apply client_comm.reachable_step; [apply client_comm.reachable_init|exact I]. }
  split; [exact A|]. split; [exact B|].
  destruct (C4_unregistered_destination_rejected
              2 2 scenario.cc.connected scenario.alice 0%nat
              {| client_comm.result_queue := []; client_comm.tokens := 2 |}
              (scenario.cc.frame 1 "faces")
              scenario.ws.connected scenario.alice 0%nat
              (scenario.ws.frame 1 "faces") R)
    as [(_ & _ & _ & H1) (_ & _ & _ & _ & H2)].
  - vm_compute. reflexivity.
  - exact A.
  - exact B.
  - split; [exact H1|exact H2].
Defined.

(** In a reachable store of client_comm a frame is never forwarded: the
    test of line 78 looks the engine name up in [self.clients], whose keys
    are addresses, so the input queue never grows and no counter is ever
    decremented by a frame. *)
Lemma consumer_never_forwards maxsize n s ws c raw :
  client_comm.reachable maxsize n s ->
  let s' := state_after (client_comm.consumer_handler_iter ws c raw) s in
  client_comm.input_queue s' = client_comm.input_queue s /\
  client_comm.heap s' = client_comm.heap s.
Proof.
  intros R s'. unfold s', state_after.
  pose proof (reachable_keys_are_addresses _ _ _ R (client_comm.engine_name raw))
    as Hk.
  destruct (decide (0 < client_comm.tokens (client_comm.heap s !!! c))).
  - by rewrite consumer_engine_unknown.
  - by rewrite consumer_no_tokens by lia.
Qed.

(** C5.  Three frames back to back with the default sizes.  Whatever the
    set [available_engines] holds, a freshly connected client (two tokens)
    that sends three frames for the engine ["face"] gets three
    REQUESTED_ENGINE_NOT_AVAILABLE replies, each reporting two tokens;
    nothing is put on the input queue and the counter stays at two. *)
Theorem C5_three_frames_all_refused :
  forall engines : gset string,
    let s0 := client_comm.with_available_engines engines
                (client_comm.__init__ client_comm.INPUT_QUEUE_MAXSIZE
                                      client_comm.NUM_TOKENS) in
    let s1 := state_after (client_comm.handler_enter scenario.alice) s0 in
    let frames := [scenario.cc.frame 1 "face"; scenario.cc.frame 2 "face";
                   scenario.cc.frame 3 "face"] in
    let s2 := state_after
                (client_comm.consumer_handler scenario.alice 0%nat frames) s1 in
    result_of (client_comm.handler_enter scenario.alice) s0 = Val 0%nat /\
    client_comm.tokens (client_comm.heap s1 !!! 0%nat) = 2 /\
    client_comm.sent s2 =
      [(scenario.alice,
        client_comm.error_reply (scenario.cc.frame 1 "face")
          REQUESTED_ENGINE_NOT_AVAILABLE 2);
       (scenario.alice,
        client_comm.error_reply (scenario.cc.frame 2 "face")
          REQUESTED_ENGINE_NOT_AVAILABLE 2);
       (scenario.alice,
        client_comm.error_reply (scenario.cc.frame 3 "face")
          REQUESTED_ENGINE_NOT_AVAILABLE 2)] /\
    client_comm.input_queue s2 = [] /\
    client_comm.tokens (client_comm.heap s2 !!! 0%nat) = 2.
Proof.
  intros engines. vm_compute. repeat split.
Qed.

(** The rest of the turn does what C5 describes once the test of line 78
    passes: on a store where ["face"] is a key of [self.clients], with two
    tokens and an empty queue of size two, two frames are queued, the
    counter goes 2, 1, 0, and the third frame is answered NO_TOKENS. *)
Lemma consumer_three_frames_when_test_passes :
  let s1 := client_comm.with_clients
              (<[client_comm.KStr "face" := 0%nat]>
                 (client_comm.clients scenario.cc.connected))
              scenario.cc.connected in
  let f1 := scenario.cc.frame 1 "face" in
  let f2 := scenario.cc.frame 2 "face" in
  let f3 := scenario.cc.frame 3 "face" in
  let a := state_after (client_comm.consumer_handler_iter scenario.alice 0%nat f1) s1 in
  let b := state_after (client_comm.consumer_handler_iter scenario.alice 0%nat f2) a in
  let c := state_after (client_comm.consumer_handler_iter scenario.alice 0%nat f3) b in
  client_comm.tokens (client_comm.heap a !!! 0%nat) = 1 /\
  client_comm.tokens (client_comm.heap b !!! 0%nat) = 0 /\
  client_comm.tokens (client_comm.heap c !!! 0%nat) = 0 /\
  length (client_comm.input_queue c) = 2%nat /\
  client_comm.sent c = [(scenario.alice, client_comm.error_reply f3 NO_TOKENS 0)].
Proof. vm_compute. repeat split. Qed.

(** C6, as stated, fails in client_comm: a connection whose address is
    already a key of the registry is accepted, and the entry of that
    address is replaced.  No statement of [handler] compares the address
    with the keys of the registry. *)
Lemma C6_counterexample :
  ~ (forall s ws,
       is_Some (client_comm.clients s !! client_comm.KAddr (remote_address ws)) ->
       exists e,
         result_of (client_comm.handler_enter ws) s = Exc e /\
         client_comm.clients (state_after (client_comm.handler_enter ws) s)
         = client_comm.clients s).
Proof.
  intros H.
  destruct (H scenario.cc.connected scenario.alice_again) as (e & He & _).
  - vm_compute. eauto.
  - vm_compute in He. discriminate He.
Qed.

(** C6, amended.  In client_comm, when the address of a new connection is
    already a key of the registry, the connect operation does not fail: it
    allocates a new session with the initial allotment and an empty result
    queue and stores it under that address in place of the former entry.
    The former session object keeps its tokens and its queue but is no
    longer the one the registry answers for that address; the entries of
    all other addresses are unchanged. *)
Theorem C6_duplicate_connect_replaces_entry
    (s1 : client_comm.server) (ws1 : websocket) (old1 : loc)
    (Hk1 : client_comm.clients s1 !! client_comm.KAddr (remote_address ws1)
           = Some old1)
    (Hh1 : is_Some (client_comm.heap s1 !! old1)) :
  let s1' := state_after (client_comm.handler_enter ws1) s1 in
  exists new1,
    result_of (client_comm.handler_enter ws1) s1 = Val new1 /\
    new1 <> old1 /\
    client_comm.clients s1' !! client_comm.KAddr (remote_address ws1) = Some new1 /\
    client_comm.heap s1' !! new1 =
      Some {| client_comm.result_queue := [];
              client_comm.tokens := client_comm.num_tokens s1 |} /\
    client_comm.heap s1' !! old1 = client_comm.heap s1 !! old1 /\
    (forall k, k <> client_comm.KAddr (remote_address ws1) ->
       client_comm.clients s1' !! k = client_comm.clients s1 !! k).
Proof.
  cbn zeta. unfold state_after, result_of. rewrite handler_enter_eq. cbn.
  exists (fresh (dom (client_comm.heap s1))).
  assert (fresh (dom (client_comm.heap s1)) <> old1) as Hne.
  { intros E. apply (is_fresh (dom (client_comm.heap s1))).
    rewrite E. by apply elem_of_dom. }
  repeat split.
  - done.
  - apply lookup_insert_eq.
  - apply lookup_insert_eq.
  - by apply lookup_insert_ne.
  - intros k Hk. by apply lookup_insert_ne.
Qed.

Lemma C6_witness :
  client_comm.clients scenario.cc.connected
    !! client_comm.KAddr (remote_address scenario.alice_again) = Some 0%nat /\
  client_comm.heap
    (state_after (client_comm.handler_enter scenario.alice_again)
                 scenario.cc.connected) !! 0%nat
  = client_comm.heap scenario.cc.connected !! 0%nat.
Proof.
  assert (client_comm.clients scenario.cc.connected
            !! client_comm.KAddr (remote_address scenario.alice_again)
          = Some 0%nat) as A by (vm_compute; reflexivity).
  split; [exact A|].
  destruct (C6_duplicate_connect_replaces_entry
              scenario.cc.connected scenario.alice_again 0%nat A)
    as (n1 & _ & _ & _ & _ & H1 & _).
  - vm_compute. eauto.
  - exact H1.
Defined.

(** C7.  The filter operations and the ledgers.  [add_filter_consumed] and
    [remove_filter_consumed] never change a ledger: the set of consumed
    filters is updated and the loop over the sessions then raises
    NameError.  A client connected before ["faces"] is declared has no
    counter for it afterwards, and its next frame tagged ["faces"] ends
    its consumer with KeyError; a client connected while ["faces"] was
    declared keeps its counter after the filter is removed. *)
Theorem C7_filter_operations_skip_ledgers :
  (forall f s,
     websocket_server.heap (state_after (websocket_server.add_filter_consumed f) s)
     = websocket_server.heap s /\
     websocket_server.heap (state_after (websocket_server.remove_filter_consumed f) s)
     = websocket_server.heap s) /\
  (let s := scenario.ws.connected in
   let s' := state_after (websocket_server.add_filter_consumed "faces") s in
   result_of (websocket_server.add_filter_consumed "faces") s = Exc NameError /\
   ("faces" ∈ websocket_server._filters_consumed s') /\
   websocket_server.counter s' 0%nat "faces" = None /\
   result_of (websocket_server._consumer_recv
                scenario.alice 0%nat (scenario.ws.frame 1 "faces")) s'
   = Exc KeyError) /\
  (let s := scenario.ws.faces_then_connected in
   let s' := state_after (websocket_server.remove_filter_consumed "faces") s in
   result_of (websocket_server.remove_filter_consumed "faces") s = Exc NameError /\
   ("faces" ∉ websocket_server._filters_consumed s') /\
   websocket_server.counter s' 0%nat "faces" = Some 2).
Proof.
  split; [|split].
  - intros f s. split;
      [apply add_filter_consumed_heap|apply remove_filter_consumed_heap].
  - cbn zeta. unfold state_after, result_of.
    rewrite add_filter_consumed_new by (cbn; apply not_elem_of_empty).
    cbn [fst snd]. split; [done|]. split; [cbn; set_solver|].
    split; [vm_compute; reflexivity|].
    rewrite recv_no_counter; [done|cbn; set_solver|vm_compute; reflexivity].
  - cbn zeta. unfold state_after, result_of.
    assert ("faces" ∈ websocket_server._filters_consumed
                        scenario.ws.faces_then_connected) as Hin.
    { apply (bool_decide_unpack _). vm_compute. exact I. }
    rewrite remove_filter_consumed_known by done.
    cbn [fst snd]. split; [done|]. split.
    { cbn. intros [_ Hn]%elem_of_difference. apply Hn. by apply elem_of_singleton. }
    vm_compute. reflexivity.
Qed.

(** C8, as stated, fails in client_comm.  Two connections report the same
    address; each handler registers once and tears down once.  The handler
    that tears down second finds no entry: its [del self.clients[address]]
    raises KeyError, so a teardown performed again for the same identity
    is not safe. *)
Lemma C8_counterexample :
  ~ (forall evs maxsize n i ws,
       client_comm_runs.handlers_ok false [] evs = true ->
       evs !! i = Some (client_comm.Disconnect ws) ->
       client_comm_runs.outcomes evs (client_comm.__init__ maxsize n) !! i
       = Some (Val tt)).
Proof.
  intros H.
  specialize (H [client_comm.Connect scenario.alice;
                 client_comm.Connect scenario.alice_again;
                 client_comm.Disconnect scenario.alice;
                 client_comm.Disconnect scenario.alice_again]
                2 2 3%nat scenario.alice_again).
  assert (client_comm_runs.handlers_ok false []
            [client_comm.Connect scenario.alice;
             client_comm.Connect scenario.alice_again;
             client_comm.Disconnect scenario.alice;
             client_comm.Disconnect scenario.alice_again] = true) as W
    by (vm_compute; reflexivity).
  specialize (H W eq_refl). vm_compute in H. discriminate H.
Qed.

(** C8, amended.  In client_comm the teardown of a handler is the
    statement [del self.clients[address]] of its [finally] block.  When
    the address of the handler is a key of the registry, the teardown ends
    normally, removes that entry and touches neither another entry nor a
    session object.  When it is not, the teardown raises KeyError and
    leaves the store as it was; in particular, once a teardown has run for
    an address, the teardown of any connection that reports the same
    address raises KeyError and leaves the registry unchanged. *)
Theorem C8_teardown_raises_when_entry_gone :
  forall s ws,
    let a := client_comm.KAddr (remote_address ws) in
    let s1 := state_after (client_comm.handler_exit ws) s in
    (is_Some (client_comm.clients s !! a) ->
     result_of (client_comm.handler_exit ws) s = Val tt /\
     client_comm.clients s1 = delete a (client_comm.clients s)) /\
    (client_comm.clients s !! a = None ->
     client_comm.handler_exit ws s = (Exc KeyError, s)) /\
    client_comm.clients s1 !! a = None /\
    (forall k, k <> a -> client_comm.clients s1 !! k = client_comm.clients s !! k) /\
    client_comm.heap s1 = client_comm.heap s /\
    (forall ws', remote_address ws' = remote_address ws ->
       client_comm.handler_exit ws' s1 = (Exc KeyError, s1)).
Proof.
  intros s ws a s1. unfold s1, a, state_after, result_of.
  destruct (client_comm.clients s !! client_comm.KAddr (remote_address ws))
    as [c|] eqn:Hk.
  - rewrite handler_exit_registered by (rewrite Hk; eauto). cbn [fst snd].
    split; [done|]. split; [done|]. split; [cbn; apply lookup_delete_eq|].
    split; [intros k Hne; cbn; by apply lookup_delete_ne|]. split; [done|].
    intros ws' Hws'. apply handler_exit_missing. cbn. rewrite Hws'.
    apply lookup_delete_eq.
  - rewrite handler_exit_missing by done. cbn [fst snd].
    split; [by intros [? ?]|]. split; [done|]. split; [done|].
    split; [done|]. split; [done|].
    intros ws' Hws'. apply handler_exit_missing. by rewrite Hws'.
Qed.

Lemma C8_witness :
  let s := client_comm_runs.exec
             [client_comm.Connect scenario.alice;
              client_comm.Connect scenario.alice_again]
             (client_comm.__init__ 2 2) in
  is_Some (client_comm.clients s
             !! client_comm.KAddr (remote_address scenario.alice)) /\
  result_of (client_comm.handler_exit scenario.alice) s = Val tt /\
  client_comm.handler_exit scenario.alice_again
    (state_after (client_comm.handler_exit scenario.alice) s)
  = (Exc KeyError, state_after (client_comm.handler_exit scenario.alice) s).
Proof.
  intros s.
  destruct (C8_teardown_raises_when_entry_gone s scenario.alice)
    as (A & _ & _ & _ & _ & B).
  assert (is_Some (client_comm.clients s
                     !! client_comm.KAddr (remote_address scenario.alice))) as P
    by (vm_compute; eauto).
  split; [exact P|]. split; [exact (proj1 (A P))|].
  apply B. reflexivity.
Defined.

Lemma welcomes_app l1 l2 :
  websocket_server.welcomes (l1 ++ l2)
  = websocket_server.welcomes l1 ++ websocket_server.welcomes l2.
Proof.
  induction l1 as [|[ws [fs n|rw]] l1 IH]; cbn; [done| |done].
  by rewrite IH.
Qed.

(** Every event only appends to the messages sent, and none appends a
    welcome message. *)
Lemma run_sent e s :
  exists l,
    websocket_server.sent (state_after (websocket_server.run e) s)
    = websocket_server.sent s ++ l /\
    websocket_server.welcomes l = [].
Proof.
  destruct e as [ws|ws c raw|ws c ok|fe|ws|f|f];
    unfold state_after, websocket_server.run.
  - unfold bind. rewrite _handler_enter_eq. exists []. by rewrite app_nil_r.
  - destruct (recv_cases c raw s) as [H|[[H1 H2]|[(t&H1&H2&H3)|(t&H1&H2&H3)]]].
    + rewrite recv_no_engine by done. cbn. eauto.
    + rewrite recv_no_counter by done. exists []. by rewrite app_nil_r.
    + erewrite recv_no_tokens by done. cbn. eauto.
    + erewrite recv_submits by done. exists []. by rewrite app_nil_r.
  - destruct (resume_cases c s) as [H|[(te&H1&H2)|(te&t&H1&H2)]].
    + rewrite resume_not_suspended by done. exists []. by rewrite app_nil_r.
    + destruct ok.
      * erewrite resume_no_counter by done. exists []. by rewrite app_nil_r.
      * erewrite resume_send_failed by done. cbn. eauto.
    + destruct ok.
      * erewrite resume_send_succeeded by done. exists []. by rewrite app_nil_r.
      * erewrite resume_send_failed by done. cbn. eauto.
  - destruct (producer_cases fe s) as [H|[(c&H1&H2)|(c&cl&t&H1&H2&H3)]].
    + rewrite producer_missing by done. exists []. by rewrite app_nil_r.
    + erewrite producer_no_counter by done. exists []. by rewrite app_nil_r.
    + erewrite producer_refund by done. cbn. eauto.
  - destruct (websocket_server._clients s !! remote_address ws) as [c|] eqn:Hk.
    + rewrite _handler_exit_registered by (rewrite Hk; eauto).
      exists []. by rewrite app_nil_r.
    + rewrite _handler_exit_missing by done. exists []. by rewrite app_nil_r.
  - destruct (decide (f ∈ websocket_server._filters_consumed s)).
    + rewrite add_filter_consumed_known by done. exists []. by rewrite app_nil_r.
    + rewrite add_filter_consumed_new by done. exists []. by rewrite app_nil_r.
  - destruct (decide (f ∈ websocket_server._filters_consumed s)).
    + rewrite remove_filter_consumed_known by done. exists []. by rewrite app_nil_r.
    + rewrite remove_filter_consumed_unknown by done. exists []. by rewrite app_nil_r.
Qed.

(** C9.  No welcome message is sent.  [_handler] asks [namedtuple] for the
    session object with two keyword arguments and none of the two
    arguments that [namedtuple] requires: the call raises TypeError.  The
    connection has been logged by then; the session is not stored, the
    welcome message of lines 59-65 is neither built nor sent, and the
    store is otherwise as it was, whatever the filters consumed and the
    allotment are.  No other event of the loop sends a welcome message, so
    in every reachable store no client has been sent one and no session is
    registered. *)
Theorem C9_handler_raises_before_welcome :
  (forall ws s,
     websocket_server._handler_enter ws s =
       (Exc TypeError,
        websocket_server.with_log
          (websocket_server.log s ++ [(INFO, "New Client connected: %s"%string)])
          s)) /\
  (forall e s,
     websocket_server.welcomes
       (websocket_server.sent (state_after (websocket_server.run e) s))
     = websocket_server.welcomes (websocket_server.sent s)) /\
  (forall port_ n mms s,
     websocket_server.reachable port_ n mms s ->
     websocket_server.welcomes (websocket_server.sent s) = [] /\
     websocket_server._clients s = ∅ /\
     websocket_server.heap s = ∅).
Proof.
  assert (forall e s,
            websocket_server.welcomes
              (websocket_server.sent (state_after (websocket_server.run e) s))
            = websocket_server.welcomes (websocket_server.sent s)) as Hw.
  { intros e s. destruct (run_sent e s) as (l & Hl & Hnil).
    by rewrite Hl, welcomes_app, Hnil, app_nil_r. }
  split; [intros ws s; apply _handler_enter_eq|]. split; [exact Hw|].
  intros port_ n mms s R. induction R as [|s e R IH He].
  - done.
  - destruct IH as (IH1 & IH2 & IH3). split; [by rewrite Hw|].
    destruct (run_unregistered e s IH2 IH3) as [-> ->]. done.
Qed.

(** C10.  The refund of the dispatch loop.  For a result whose address is
    registered, [_producer] adds one to the counter named by the filter
    label of the result, without testing that the label is a key of the
    ledger.  When the label is a key, that counter grows by exactly one,
    no other counter of any session changes, and the result is sent on the
    websocket of the session.  When it is not, the update raises KeyError:
    the store is left as it was, the result is not sent and no warning is
    logged. *)
Theorem C10_refund_requires_label_in_ledger
    (fe : websocket_server.from_engine) (s : websocket_server.server)
    (c : loc) (cl : websocket_server.client)
    (Hc : websocket_server._clients s
            !! (websocket_server.fe_host fe, websocket_server.fe_port fe) = Some c)
    (Hcl : websocket_server.heap s !! c = Some cl) :
  let label := websocket_server.rw_filter_passed
                 (websocket_server.fe_result_wrapper fe) in
  let s' := state_after (websocket_server._producer_iter fe) s in
  match websocket_server.tokens_for_filter cl !! label with
  | Some t =>
      result_of (websocket_server._producer_iter fe) s = Val tt /\
      websocket_server.counter s' c label = Some (t + 1) /\
      (forall c' f', ~ (c' = c /\ f' = label) ->
         websocket_server.counter s' c' f' = websocket_server.counter s c' f') /\
      websocket_server.sent s' =
        websocket_server.sent s ++
          [(websocket_server.websocket_ cl,
            websocket_server.Result (websocket_server.fe_result_wrapper fe))]
  | None =>
      websocket_server._producer_iter fe s = (Exc KeyError, s)
  end.
Proof.
  intros label s'.
  destruct (websocket_server.tokens_for_filter cl !! label) as [t|] eqn:Ht.
  - unfold s', state_after, result_of.
    erewrite producer_refund by done. cbn [fst snd].
    split; [done|]. unfold websocket_server.counter. cbn.
    split; [|split; [|done]].
    + rewrite counter_alter_set. rewrite decide_True by done. by rewrite Hcl.
    + intros c' f' Hne. rewrite counter_alter_set.
      rewrite decide_False; [done|]. intros [E1 E2]. apply Hne.
      by split.
  - apply producer_no_counter with (c := c); [done|].
    unfold websocket_server.counter. rewrite Hcl. done.
Qed.

Lemma C10_witness :
  let s := scenario.ws.faces_then_connected in
  websocket_server._clients s !! ("10.0.0.1"%string, 5000) = Some 0%nat /\
  websocket_server.counter
    (state_after (websocket_server._producer_iter
                    (scenario.ws.result_for scenario.alice 7 "faces")) s)
    0%nat "faces" = Some 3 /\
  websocket_server._producer_iter
    (scenario.ws.result_for scenario.alice 7 "plates") s = (Exc KeyError, s).
Proof.
  intros s.
  assert (websocket_server._clients s !! ("10.0.0.1"%string, 5000) = Some 0%nat)
    as A by (vm_compute; reflexivity).
  assert (websocket_server.heap s !! 0%nat =
            Some {| websocket_server.tokens_for_filter := {["faces"%string := 2]};
                    websocket_server.websocket_ := scenario.alice |}) as B
    by (vm_compute; reflexivity).
  split; [exact A|].
  pose proof (C10_refund_requires_label_in_ledger
                (scenario.ws.result_for scenario.alice 7 "faces") s 0%nat _ A B)
    as H1.
  pose proof (C10_refund_requires_label_in_ledger
                (scenario.ws.result_for scenario.alice 7 "plates") s 0%nat _ A B)
    as H2.
  cbn zeta in H1, H2.
  change (websocket_server.rw_filter_passed
            (websocket_server.fe_result_wrapper
               (scenario.ws.result_for scenario.alice 7 "faces")))
    with "faces"%string in H1.
  change (websocket_server.rw_filter_passed
            (websocket_server.fe_result_wrapper
               (scenario.ws.result_for scenario.alice 7 "plates")))
    with "plates"%string in H2.
  change (websocket_server.tokens_for_filter _ !! "faces"%string)
    with (Some 2) in H1.
  change (websocket_server.tokens_for_filter _ !! "plates"%string)
    with (@None Z) in H2.
  destruct H1 as (_ & H1 & _).
  split; [exact H1|exact H2].
Defined.

(** * Further properties of variant 1 (client_comm) *)

Section client_comm_further.

Import client_comm client_comm_runs.

Ltac cc_run :=
  unfold run, consumer_handler_iter, producer_handler_iter, handler_enter,
    handler_exit, queue_result, engine_get,
    _send_engine_not_available_message, _send_queue_full_message,
    _send_no_tokens_message, _send_error, _send, websocket_send, logger,
    get_tokens, update_tokens, put_nowait, error_reply,
    try_except, bind, gets, modify, ret, raise, state_after, result_of,
    with_sent, with_log, with_heap, with_clients, with_input_queue in *.

Lemma alter_known {A} (f : A -> A) (c : loc) (x : A) (h : gmap loc A) :
  h !! c = Some x -> alter f c h = <[c := f x]> h.
Proof.
  intros Hx. apply map_eq. intros c'. destruct (decide (c = c')) as [<-|Hne].
  - by rewrite lookup_alter_eq, lookup_insert_eq, Hx.
  - by rewrite lookup_alter_ne, lookup_insert_ne.
Qed.

(** One turn of [producer_handler] on a session that has a result. *)
Lemma producer_iter_pop ws c cl r rest s :
  heap s !! c = Some cl -> result_queue cl = r :: rest ->
  producer_handler_iter ws c s =
    (Val tt,
     with_sent (sent s ++ [(ws, {| tc_content := r;
                                   tc_num_tokens := tokens cl + 1 |})])
       (with_log (log s ++ [(DEBUG, "Sending to %s"%string)])
          (with_heap (<[c := {| result_queue := rest;
                                tokens := tokens cl + 1 |}]> (heap s)) s))).
Proof.
  intros Hcl Hq. cc_run. cbn.
  rewrite (lookup_total_correct _ _ _ Hcl), Hq. cbn.
  rewrite (alter_known _ _ _ _ Hcl). rewrite alter_insert_eq. cbn.
  rewrite lookup_total_insert_eq. done.
Qed.

(** One turn of [producer_handler] on a session without results: the
    coroutine stays suspended in [result_queue.get()]. *)
Lemma producer_iter_empty ws c cl s :
  heap s !! c = Some cl -> result_queue cl = [] ->
  producer_handler_iter ws c s = (Val tt, s).
Proof.
  intros Hcl Hq. cc_run. cbn.
  by rewrite (lookup_total_correct _ _ _ Hcl), Hq.
Qed.

Lemma producer_handler_drains q : forall ws c cl s,
  heap s !! c = Some cl -> result_queue cl = q ->
  let s' := state_after (producer_handler ws c (length q)) s in
  result_of (producer_handler ws c (length q)) s = Val tt /\
  sent s' = sent s ++ deliveries ws (tokens cl) q /\
  heap s' !! c = Some {| result_queue := [];
                         tokens := tokens cl + Z.of_nat (length q) |} /\
  (forall c', c' <> c -> heap s' !! c' = heap s !! c') /\
  clients s' = clients s /\ input_queue s' = input_queue s.
Proof.
  induction q as [|r rest IH]; intros ws c cl s Hcl Hq.
  - cbn. rewrite app_nil_r. repeat split; try done.
    rewrite Hcl. destruct cl as [q t]. cbn in *. subst q.
    do 2 f_equal. lia.
  - cbn [length producer_handler]. unfold state_after, result_of, bind.
    rewrite (producer_iter_pop _ _ _ _ _ _ Hcl Hq).
    set (cl1 := {| result_queue := rest; tokens := tokens cl + 1 |}).
    set (s1 := with_sent _ _).
    assert (heap s1 !! c = Some cl1) as Hcl1 by (cbn; apply lookup_insert_eq).
    destruct (IH ws c cl1 s1 Hcl1 eq_refl) as (R & S1 & H1 & O1 & K1 & Q1).
    unfold state_after, result_of in *.
    split; [exact R|]. split.
    { rewrite S1. cbn. by rewrite <- app_assoc. }
    split.
    { rewrite H1. cbn. do 2 f_equal. lia. }
    split.
    { intros c' Hne. rewrite (O1 c' Hne). cbn. by rewrite lookup_insert_ne. }
    split; [by rewrite K1|by rewrite Q1].
Qed.

Lemma queue_results_appends rs : forall a c cl s,
  clients s !! KAddr a = Some c -> heap s !! c = Some cl ->
  let s' := state_after (queue_results rs a) s in
  result_of (queue_results rs a) s = Val tt /\
  heap s' !! c = Some {| result_queue := result_queue cl ++ rs;
                         tokens := tokens cl |} /\
  (forall c', c' <> c -> heap s' !! c' = heap s !! c') /\
  clients s' = clients s /\ sent s' = sent s /\ log s' = log s /\
  input_queue s' = input_queue s.
Proof.
  induction rs as [|r rs IH]; intros a c cl s Hk Hcl.
  - cbn. rewrite app_nil_r. repeat split; try done.
    rewrite Hcl. by destruct cl.
  - unfold queue_results in *. cbn [for_each].
    unfold state_after, result_of, bind in *.
    rewrite (queue_result_registered _ _ _ _ Hk).
    set (cl1 := {| result_queue := result_queue cl ++ [r]; tokens := tokens cl |}).
    set (s1 := with_heap _ _).
    assert (heap s1 !! c = Some cl1) as Hcl1.
    { cbn. by rewrite lookup_alter_eq, Hcl. }
    destruct (IH a c cl1 s1 Hk Hcl1) as (R & H1 & O1 & K1 & S1 & L1 & Q1).
    split; [exact R|]. split.
    { rewrite H1. cbn. by rewrite <- app_assoc. }
    split.
    { intros c' Hne. rewrite (O1 c' Hne). cbn. by rewrite lookup_alter_ne. }
    by rewrite K1, S1, L1, Q1.
Qed.

(** X1.  Results reach the client in the order they were submitted.  When
    the results [rs] are handed to [queue_result] for a registered address,
    they are appended to the queue of its session, no counter moves and
    nothing is sent; when [producer_handler] then runs one turn per queued
    result, the client receives every result once, oldest first, each
    message reporting one token more than the one before, and the session
    ends with an empty queue and all these tokens. *)
Theorem X1_results_delivered_in_order
    (rs : list content) (a : address) (ws : websocket) (c : loc) (cl : client)
    (s : server)
    (Hk : clients s !! KAddr a = Some c) (Hcl : heap s !! c = Some cl) :
  let q := result_queue cl ++ rs in
  let s1 := state_after (queue_results rs a) s in
  let s2 := state_after (producer_handler ws c (length q)) s1 in
  result_of (queue_results rs a) s = Val tt /\
  heap s1 !! c = Some {| result_queue := q; tokens := tokens cl |} /\
  sent s1 = sent s /\
  result_of (producer_handler ws c (length q)) s1 = Val tt /\
  sent s2 = sent s ++ deliveries ws (tokens cl) q /\
  heap s2 !! c = Some {| result_queue := [];
                         tokens := tokens cl + Z.of_nat (length q) |} /\
  (forall c', c' <> c -> heap s2 !! c' = heap s !! c').
Proof.
  intros q s1 s2.
  destruct (queue_results_appends rs a c cl s Hk Hcl)
    as (R1 & H1 & O1 & K1 & S1 & L1 & Q1).
  fold s1 in H1, O1, K1, S1.
  destruct (producer_handler_drains q ws c _ s1 H1 eq_refl)
    as (R2 & S2 & H2 & O2 & _).
  fold s2 in S2, H2, O2. cbn in S2, H2.
  split; [done|]. split; [done|]. split; [done|]. split; [done|].
  split; [by rewrite S2, S1|]. split; [done|].
  intros c' Hne. by rewrite (O2 c' Hne), (O1 c' Hne).
Qed.

Lemma X1_witness :
  let r1 := {| c_frame_id := 1; c_status := SUCCESS; c_payload := "a" |} in
  let r2 := {| c_frame_id := 2; c_status := SUCCESS; c_payload := "b" |} in
  let s := scenario.cc.connected in
  clients s !! KAddr ("10.0.0.1"%string, 5000) = Some 0%nat /\
  sent (state_after (producer_handler scenario.alice 0%nat 2)
          (state_after (queue_results [r1; r2] ("10.0.0.1"%string, 5000)) s))
  = sent s ++ deliveries scenario.alice 2 [r1; r2].
Proof.
  intros r1 r2 s.
  assert (clients s !! KAddr ("10.0.0.1"%string, 5000) = Some 0%nat) as A
    by (vm_compute; reflexivity).
  assert (heap s !! 0%nat = Some {| result_queue := []; tokens := 2 |}) as B
    by (vm_compute; reflexivity).
  split; [exact A|].
  destruct (X1_results_delivered_in_order
              [r1; r2] ("10.0.0.1"%string, 5000) scenario.alice 0%nat _ s A B)
    as (_ & _ & _ & _ & H & _).
  exact H.
Defined.

(** X2.  What a turn of [consumer_handler] tells the client.  On bytes
    that decode to a frame, the turn ends normally and sends at most one
    message; a message is sent exactly when the frame is not put on the
    input queue, it goes over the websocket of the turn, echoes the
    identifier of the frame, and reports the number of tokens the session
    holds after the turn.  On bytes that do not decode, the turn ends with
    DecodeError: no message is sent, and the input queue, the registry and
    every session are as they were. *)
Theorem X2_consumer_reply_reports_tokens
    (ws : websocket) (c : loc) (cl : client) (raw : raw_bytes) (s : server)
    (Hcl : heap s !! c = Some cl) :
  let s' := state_after (consumer_handler_turn ws c raw) s in
  match raw with
  | Some m =>
      result_of (consumer_handler_turn ws c raw) s = Val tt /\
      ((input_queue s' = input_queue s ++
                           [{| host := (remote_address ws).1;
                               port := (remote_address ws).2; fc := m |}] /\
        sent s' = sent s /\
        tokens (heap s' !!! c) = tokens cl - 1) \/
       (input_queue s' = input_queue s /\
        tokens (heap s' !!! c) = tokens cl /\
        exists st,
          sent s' = sent s ++ [(ws, error_reply m st (tokens (heap s' !!! c)))]))
  | None =>
      result_of (consumer_handler_turn ws c raw) s = Exc DecodeError /\
      sent s' = sent s /\ input_queue s' = input_queue s /\
      heap s' = heap s /\ clients s' = clients s
  end.
Proof.
  intros s'. unfold s'. destruct raw as [m|].
  - unfold consumer_handler_turn, state_after, result_of.
    destruct (consumer_cases c m s) as [H|[[H1 H2]|[(H1&H2&H3)|(H1&H2&H3)]]].
    + rewrite consumer_no_tokens by done. cbn -[lookup_total]. split; [done|]. right.
      rewrite !(lookup_total_correct _ _ _ Hcl). eauto.
    + rewrite consumer_engine_unknown by done. cbn -[lookup_total]. split; [done|]. right.
      rewrite !(lookup_total_correct _ _ _ Hcl). eauto.
    + rewrite consumer_queue_full by done. cbn -[lookup_total]. split; [done|]. right.
      rewrite !(lookup_total_correct _ _ _ Hcl). eauto.
    + rewrite consumer_forwarded by done. cbn -[lookup_total]. split; [done|]. left.
      split; [done|]. split; [done|].
      rewrite (alter_known _ _ _ _ Hcl), lookup_total_insert_eq. done.
  - unfold consumer_handler_turn, state_after, result_of.
    cc_run. cbn. by destruct (0 <? tokens (heap s !!! c)).
Qed.

Lemma X2_witness :
  let s := scenario.cc.connected in
  heap s !! 0%nat = Some {| result_queue := []; tokens := 2 |} /\
  result_of (consumer_handler_turn scenario.alice 0%nat
               (Some (scenario.cc.frame 1 "face"))) s = Val tt /\
  result_of (consumer_handler_turn scenario.alice 0%nat None) s
  = Exc DecodeError.
Proof.
  intros s.
  assert (heap s !! 0%nat = Some {| result_queue := []; tokens := 2 |}) as B
    by (vm_compute; reflexivity).
  split; [exact B|].
  destruct (X2_consumer_reply_reports_tokens
              scenario.alice 0%nat _ (Some (scenario.cc.frame 1 "face")) s B)
    as [H _].
  destruct (X2_consumer_reply_reports_tokens scenario.alice 0%nat _ None s B)
    as [H' _].
  split; [exact H|exact H'].
Defined.

(** X3.  The input queue stays within its size.  For a queue built with a
    positive [maxsize], no event of the loop makes the queue longer than
    [maxsize]: a frame is appended only when the queue holds fewer items,
    and [maxsize] itself never changes. *)
Theorem X3_input_queue_bounded (e : event) (s : server)
    (Hm : 0 < input_queue_maxsize s)
    (Hl : Z.of_nat (length (input_queue s)) <= input_queue_maxsize s) :
  let s' := state_after (run e) s in
  input_queue_maxsize s' = input_queue_maxsize s /\
  Z.of_nat (length (input_queue s')) <= input_queue_maxsize s'.
Proof.
  intros s'. unfold s', state_after.
  destruct e as [ws|ws c raw|ws c|result a|ws|]; unfold run.
  - unfold bind. by rewrite handler_enter_eq.
  - destruct (consumer_cases c raw s) as [H|[[H1 H2]|[(H1&H2&H3)|(H1&H2&H3)]]].
    + by rewrite consumer_no_tokens.
    + by rewrite consumer_engine_unknown.
    + by rewrite consumer_queue_full.
    + rewrite consumer_forwarded by done. cbn. split; [done|].
      rewrite length_app. cbn. unfold input_queue_full in H3. lia.
  - cc_run. cbn. by destruct (result_queue (heap s !!! c)).
  - destruct (clients s !! KAddr a) as [c|] eqn:Hk.
    + by erewrite queue_result_registered.
    + by rewrite queue_result_missing.
  - destruct (clients s !! KAddr (remote_address ws)) as [c|] eqn:Hk.
    + by rewrite handler_exit_registered.
    + by rewrite handler_exit_missing.
  - cbn. split; [done|]. destruct (input_queue s); cbn in *; lia.
Qed.

Lemma X3_witness :
  let s := scenario.cc.full_queue in
  let e := Frame scenario.alice 0%nat (scenario.cc.frame 1 "face") in
  0 < input_queue_maxsize s /\
  Z.of_nat (length (input_queue (state_after (run e) s)))
  <= input_queue_maxsize (state_after (run e) s).
Proof.
  intros s e.
  assert (0 < input_queue_maxsize s) as A by (vm_compute; reflexivity).
  split; [exact A|].
  destruct (X3_input_queue_bounded e s A) as [_ H].
  - vm_compute. discriminate.
  - exact H.
Defined.

(** An injective reading of a list without repeated images. *)
Lemma NoDup_fmap_eq {A B} (f : A -> B) (l : list A) x y :
  NoDup (f <$> l) -> x ∈ l -> y ∈ l -> f x = f y -> x = y.
Proof.
  induction l as [|z l IH]; cbn; [by intros _ ?%elem_of_nil|].
  intros [Hz Hl]%NoDup_cons [->|Hx]%elem_of_cons [->|Hy]%elem_of_cons Hf.
  - done.
  - exfalso. apply Hz. rewrite Hf. by apply list_elem_of_fmap_2.
  - exfalso. apply Hz. rewrite <- Hf. by apply list_elem_of_fmap_2.
  - by apply IH.
Qed.

(** The registry after a connect. *)
Lemma run_connect_clients ws s :
  clients (state_after (run (Connect ws)) s)
  = <[KAddr (remote_address ws) := fresh (dom (heap s))]> (clients s).
Proof. reflexivity. Qed.

(** Events other than a connect and a teardown leave the registry alone. *)
Lemma run_other_clients e s :
  (forall ws, e <> Connect ws) -> (forall ws, e <> Disconnect ws) ->
  clients (state_after (run e) s) = clients s.
Proof.
  intros Hc Hd.
  destruct e as [ws|ws c raw|ws c|result a|ws|]; unfold run.
  - by destruct (Hc ws).
  - apply consumer_clients.
  - unfold state_after. cc_run. cbn. by destruct (result_queue (heap s !!! c)).
  - unfold state_after. destruct (clients s !! KAddr a) as [c|] eqn:Hk.
    + by erewrite queue_result_registered.
    + by rewrite queue_result_missing.
  - by destruct (Hd ws).
  - done.
Qed.

Lemma handlers_keep_registry evs : forall live s,
  handlers_ok true live evs = true ->
  NoDup (remote_address <$> live) ->
  (forall a, is_Some (clients s !! KAddr a) <-> a ∈ remote_address <$> live) ->
  (forall i ws, evs !! i = Some (Disconnect ws) ->
     outcomes evs s !! i = Some (Val tt)) /\
  NoDup (remote_address <$> live_after live evs) /\
  (forall a, is_Some (clients (exec evs s) !! KAddr a)
             <-> a ∈ remote_address <$> live_after live evs).
Proof.
  induction evs as [|e evs IH]; intros live s Hok Hnd Hreg.
  - cbn. split; [by intros i ws ?|done].
  - destruct e as [ws|ws c raw|ws c|result a|ws|].
    + (* Connect *)
      cbn in Hok. apply andb_prop in Hok as [Hok Hrest].
      apply andb_prop in Hok as [_ Haddr]. cbn in Haddr.
      apply negb_true_iff, bool_decide_eq_false in Haddr.
      destruct (IH (ws :: live) (state_after (run (Connect ws)) s) Hrest)
        as (Hout & Hnd' & Hreg').
      * cbn. by apply NoDup_cons.
      * intros a. rewrite run_connect_clients. cbn.
        rewrite elem_of_cons.
        destruct (decide (a = remote_address ws)) as [->|Hne].
        -- rewrite lookup_insert_eq. split; [by left|eauto].
        -- rewrite lookup_insert_ne by congruence. rewrite Hreg.
           split; [by right|by intros [?|?]].
      * split; [|done]. intros [|i] ws' Hi; [done|]. cbn. by apply (Hout i ws').
    + (* Frame *)
      cbn in Hok.
      destruct (IH live (state_after (run (Frame ws c raw)) s) Hok Hnd)
        as (Hout & Hnd' & Hreg').
      * intros a. by rewrite run_other_clients.
      * split; [|done]. intros [|i] ws' Hi; [done|]. cbn. by apply (Hout i ws').
    + (* Deliver *)
      cbn in Hok.
      destruct (IH live (state_after (run (Deliver ws c)) s) Hok Hnd)
        as (Hout & Hnd' & Hreg').
      * intros a. by rewrite run_other_clients.
      * split; [|done]. intros [|i] ws' Hi; [done|]. cbn. by apply (Hout i ws').
    + (* SubmitResult *)
      cbn in Hok.
      destruct (IH live (state_after (run (SubmitResult result a)) s) Hok Hnd)
        as (Hout & Hnd' & Hreg').
      * intros a'. by rewrite run_other_clients.
      * split; [|done]. intros [|i] ws' Hi; [done|]. cbn. by apply (Hout i ws').
    + (* Disconnect *)
      cbn in Hok. apply andb_prop in Hok as [Hlive Hrest].
      apply bool_decide_eq_true in Hlive.
      assert (is_Some (clients s !! KAddr (remote_address ws))) as Hreg_ws.
      { apply Hreg. by apply list_elem_of_fmap_2. }
      destruct (IH (filter (fun w => w <> ws) live)
                   (state_after (run (Disconnect ws)) s) Hrest)
        as (Hout & Hnd' & Hreg').
      * assert (remote_address <$> filter (fun w => w <> ws) live
                `sublist_of` remote_address <$> live) as Hsub
          by apply fmap_sublist, sublist_filter.
        exact (sublist_NoDup _ _ Hnd Hsub).
      * intros a. unfold state_after, run.
        rewrite handler_exit_registered by done. cbn.
        rewrite list_elem_of_fmap. split.
        -- intros [x Hx]. apply lookup_delete_Some in Hx as [Hne Hx].
           assert (a ∈ remote_address <$> live) as Ha by (apply Hreg; eauto).
           apply list_elem_of_fmap in Ha as (w & -> & Hw).
           exists w. split; [done|]. apply list_elem_of_filter.
           split; [|done]. intros ->. by apply Hne.
        -- intros (w & -> & [Hne Hw]%list_elem_of_filter).
           assert (is_Some (clients s !! KAddr (remote_address w))) as [x Hx]
             by (apply Hreg; by apply list_elem_of_fmap_2).
           exists x. apply lookup_delete_Some. split; [|done].
           intros [= E]. apply Hne. symmetry.
           by apply (NoDup_fmap_eq remote_address live).
      * split; [|done]. intros [|i] ws' Hi.
        -- cbn. unfold result_of, run.
           by rewrite handler_exit_registered.
        -- cbn. by apply (Hout i ws').
    + (* EngineGet *)
      cbn in Hok.
      destruct (IH live (state_after (run EngineGet) s) Hok Hnd)
        as (Hout & Hnd' & Hreg').
      * intros a. by rewrite run_other_clients.
      * split; [|done]. intros [|i] ws' Hi; [done|]. cbn. by apply (Hout i ws').
Qed.

(** X4.  Handlers and the registry.  Take any run of the server from
    [__init__], its events (connections, consumer turns on frames that
    decode, deliveries, submitted results, reads of the engine, teardowns)
    interleaved at will, in which a handler registers its connection once
    and tears it down at most once, after it has registered, and in which
    no connection arrives from the address of a connection whose handler
    is still running.  Then every teardown ends normally, and at the end
    of the run an address is a key of the registry exactly when the
    handler of a connection from that address is still running. *)
Theorem X4_registry_holds_the_live_handlers
    (evs : list event) (maxsize n : Z)
    (Hok : handlers_ok true [] evs = true) :
  (forall i ws, evs !! i = Some (Disconnect ws) ->
     outcomes evs (__init__ maxsize n) !! i = Some (Val tt)) /\
  (forall a, is_Some (clients (exec evs (__init__ maxsize n)) !! KAddr a)
             <-> a ∈ remote_address <$> live_after [] evs).
Proof.
  destruct (handlers_keep_registry evs [] (__init__ maxsize n) Hok)
    as (H1 & _ & H2).
  - cbn. apply NoDup_nil_2.
  - intros a. cbn. rewrite lookup_empty. split; [by intros [? ?]|].
    by intros ?%elem_of_nil.
  - by split.
Qed.

Lemma X4_witness :
  let evs := [Connect scenario.alice;
              Frame scenario.alice 0%nat (scenario.cc.frame 1 "face");
              Disconnect scenario.alice;
              Connect scenario.alice_again] in
  handlers_ok true [] evs = true /\
  outcomes evs (__init__ 2 2) !! 2%nat = Some (Val tt) /\
  is_Some (clients (exec evs (__init__ 2 2))
             !! KAddr (remote_address scenario.alice_again)).
Proof.
  intros evs.
  assert (handlers_ok true [] evs = true) as W by (vm_compute; reflexivity).
  split; [exact W|].
  destruct (X4_registry_holds_the_live_handlers evs 2 2 W) as [H1 H2].
  split; [by apply (H1 2%nat scenario.alice)|].
  apply H2. vm_compute. apply list_elem_of_here.
Defined.

End client_comm_further.

(** * Further properties of variant 2 (websocket_server) *)

Section websocket_server_further.

Import websocket_server websocket_server_runs.

(** X5.  An accepted frame costs one token of its filter.  When the filter
    of a frame is consumed, the session holds at least one token for it and
    [_send_to_engine] answers true, the whole turn ends normally: that
    counter goes down by exactly one, no other counter of any session
    changes, the engines get one envelope that carries the address of the
    connection and the frame, and nothing is sent to the client. *)
Theorem X5_accepted_frame_costs_one_token
    (ws : websocket) (c : loc) (raw : from_client) (t : Z) (s : server)
    (Hf : filter_passed raw ∈ _filters_consumed s)
    (Hc : counter s c (filter_passed raw) = Some t)
    (Ht : 1 <= t) :
  let s' := state_after (_consumer_iter ws c raw true) s in
  result_of (_consumer_iter ws c raw true) s = Val tt /\
  counter s' c (filter_passed raw) = Some (t - 1) /\
  (forall c' f', ~ (c' = c /\ f' = filter_passed raw) ->
     counter s' c' f' = counter s c' f') /\
  to_engines s' = to_engines s ++ [envelope ws raw] /\
  (host (envelope ws raw), port (envelope ws raw)) = remote_address ws /\
  sent s' = sent s /\
  pending s' !! c = None /\
  _clients s' = _clients s.
Proof.
  intros s'. unfold s', state_after, result_of, _consumer_iter, bind.
  erewrite recv_submits by done.
  erewrite resume_send_succeeded;
    [|cbn; apply lookup_insert_eq|cbn; exact Hc].
  cbn. split; [done|].
  assert (is_Some (heap s !! c)) as [cl Hcl].
  { unfold counter in Hc. destruct (heap s !! c); [eauto|done]. }
  unfold counter. cbn. split.
  { rewrite counter_alter_set, decide_True by done. by rewrite Hcl. }
  split.
  { intros c' f' Hne. rewrite counter_alter_set, decide_False; [done|].
    intros [E1 E2]. apply Hne. by split. }
  split; [done|]. split; [by destruct (remote_address ws)|].
  split; [done|]. split; [apply lookup_delete_eq|done].
Qed.

Lemma X5_witness :
  let s := scenario.ws.faces_then_connected in
  let raw := scenario.ws.frame 7 "faces" in
  (filter_passed raw ∈ _filters_consumed s) /\
  counter (state_after (_consumer_iter scenario.alice 0%nat raw true) s)
          0%nat "faces" = Some 1.
Proof.
  intros s raw.
  assert (filter_passed raw ∈ _filters_consumed s) as A.
  { apply (bool_decide_unpack _). vm_compute. exact I. }
  split; [exact A|].
  destruct (X5_accepted_frame_costs_one_token scenario.alice 0%nat raw 2 s A)
    as (_ & H & _).
  - vm_compute. reflexivity.
  - lia.
  - exact H.
Defined.

(** X6.  A frame and its result.  When a frame of a registered session is
    accepted and the engine result for it (same address, same filter label)
    is then dispatched, every ledger is again as it was before the frame:
    the token taken by the frame is given back, and the result is sent over
    the websocket of that session. *)
Theorem X6_result_gives_the_token_back
    (ws : websocket) (c : loc) (cl : client) (raw : from_client)
    (fe : from_engine) (t : Z) (s : server)
    (Hf : filter_passed raw ∈ _filters_consumed s)
    (Hk : _clients s !! remote_address ws = Some c)
    (Hcl : heap s !! c = Some cl)
    (Hc : tokens_for_filter cl !! filter_passed raw = Some t)
    (Ht : 1 <= t)
    (Ha : (fe_host fe, fe_port fe) = remote_address ws)
    (Hl : rw_filter_passed (fe_result_wrapper fe) = filter_passed raw) :
  let s1 := state_after (_consumer_iter ws c raw true) s in
  let s2 := state_after (_producer_iter fe) s1 in
  result_of (_consumer_iter ws c raw true) s = Val tt /\
  result_of (_producer_iter fe) s1 = Val tt /\
  heap s2 = heap s /\
  sent s2 = sent s ++ [(websocket_ cl, Result (fe_result_wrapper fe))] /\
  to_engines s2 = to_engines s ++ [envelope ws raw].
Proof.
  intros s1 s2. unfold s2, s1, state_after, result_of, _consumer_iter, bind.
  assert (counter s c (filter_passed raw) = Some t) as Hcnt.
  { unfold counter. rewrite Hcl. exact Hc. }
  erewrite recv_submits by done.
  erewrite resume_send_succeeded;
    [|cbn; apply lookup_insert_eq|cbn; exact Hcnt].
  cbn [fst snd].
  erewrite producer_refund with (c := c) (t := t - 1)
                                (cl := set_counter (filter_passed raw) (t - 1) cl).
  - cbn. split; [done|]. split; [done|]. split; [|done].
    apply map_eq. intros c'. destruct (decide (c = c')) as [<-|Hne].
    + rewrite !lookup_alter_eq, Hcl. cbn. f_equal.
      destruct cl as [m w]. unfold set_counter. cbn in *. f_equal.
      rewrite Hl, insert_insert_eq.
      replace (t - 1 + 1) with t by lia. by apply insert_id.
    + by rewrite !lookup_alter_ne.
  - cbn. by rewrite Ha.
  - cbn. by rewrite lookup_alter_eq, Hcl.
  - cbn. rewrite Hl. apply lookup_insert_eq.
Qed.

Lemma X6_witness :
  let s := scenario.ws.faces_then_connected in
  let raw := scenario.ws.frame 7 "faces" in
  let fe := scenario.ws.result_for scenario.alice 7 "faces" in
  _clients s !! remote_address scenario.alice = Some 0%nat /\
  heap (state_after (_producer_iter fe)
          (state_after (_consumer_iter scenario.alice 0%nat raw true) s))
  = heap s.
Proof.
  intros s raw fe.
  assert (_clients s !! remote_address scenario.alice = Some 0%nat) as A
    by (vm_compute; reflexivity).
  split; [exact A|].
  assert (filter_passed raw ∈ _filters_consumed s) as F.
  { apply (bool_decide_unpack _). vm_compute. exact I. }
  assert (heap s !! 0%nat =
            Some {| tokens_for_filter := {["faces"%string := 2]};
                    websocket_ := scenario.alice |}) as B
    by (vm_compute; reflexivity).
  destruct (X6_result_gives_the_token_back
              scenario.alice 0%nat _ raw fe 2 s F A B) as (_ & _ & H & _).
  - vm_compute. reflexivity.
  - lia.
  - reflexivity.
  - reflexivity.
  - exact H.
Defined.

(** A turn that answers NO_TOKENS before [_send_to_engine] is the first
    half of the turn alone. *)
Lemma iter_no_tokens ws c raw ok s t :
  pending s !! c = None ->
  filter_passed raw ∈ _filters_consumed s ->
  counter s c (filter_passed raw) = Some t -> t < 1 ->
  _consumer_iter ws c raw ok s = _consumer_recv ws c raw s.
Proof.
  intros Hp Hf Hc Ht. unfold _consumer_iter, bind.
  erewrite recv_no_tokens by done. by rewrite resume_not_suspended.
Qed.

(** Closes a case in which the event left the counter as it was. *)
Ltac unchanged :=
  unfold counter in *; cbn;
  let Hx := fresh "Hx" in intros Hx; left;
  match goal with Hc : _ = Some ?t |- _ = ?t =>
    rewrite Hc in Hx; by inversion Hx end.

(** X10.  Who moves a counter.  Over one event of the loop a counter of a
    session changes by at most one.  It goes down only in the second half
    of a turn of the consumer of that very session whose [_send_to_engine]
    answered true for a frame of that filter, and then that frame is the
    one handed to the engines; it goes up only when the dispatch loop
    handles a result addressed to the registry entry of that session and
    labelled with that filter. *)
Theorem X10_counter_moves_by_one
    (e : event) (s : server) (c : loc) (f : string) (t t' : Z)
    (Hc : counter s c f = Some t)
    (Hc' : counter (state_after (run e) s) c f = Some t') :
  let s' := state_after (run e) s in
  t' = t \/
  (t' = t - 1 /\
   exists ws te, e = Resume ws c true /\ pending s !! c = Some te /\
                 filter_passed (fc te) = f /\
                 to_engines s' = to_engines s ++ [te]) \/
  (t' = t + 1 /\
   exists fe, e = Produce fe /\
              _clients s !! (fe_host fe, fe_port fe) = Some c /\
              rw_filter_passed (fe_result_wrapper fe) = f).
Proof.
  intros s'. unfold s' in *. clear s'. revert Hc'.
  destruct e as [ws|ws c0 raw|ws c0 ok|fe|ws|f0|f0]; unfold state_after, run.
  - unfold bind. rewrite _handler_enter_eq. unchanged.
  - destruct (recv_cases c0 raw s) as [H|[[H1 H2]|[(t0&H1&H2&H3)|(t0&H1&H2&H3)]]].
    + rewrite recv_no_engine by done. unchanged.
    + rewrite recv_no_counter by done. unchanged.
    + erewrite recv_no_tokens by done. unchanged.
    + erewrite recv_submits by done. unchanged.
  - destruct (resume_cases c0 s) as [H|[(te&H1&H2)|(te&t0&H1&H2)]].
    + rewrite resume_not_suspended by done. unchanged.
    + destruct ok.
      * erewrite resume_no_counter by done. unchanged.
      * erewrite resume_send_failed by done. unchanged.
    + destruct ok.
      * erewrite resume_send_succeeded by done. unfold counter in *. cbn.
        rewrite counter_alter_set. case_decide as Hd.
        -- destruct Hd as [-> Hf]. rewrite Hf in H2.
           destruct (heap s !! c) as [cl|]; [|done]. cbn.
           intros [= <-]. right. left.
           split; [congruence|]. exists ws, te. by rewrite Hf.
        -- unchanged.
      * erewrite resume_send_failed by done. unchanged.
  - destruct (producer_cases fe s) as [H|[(c0&H1&H2)|(c0&cl&t0&H1&H2&H3)]].
    + rewrite producer_missing by done. unchanged.
    + erewrite producer_no_counter by done. unchanged.
    + erewrite producer_refund by done. unfold counter in *. cbn.
      rewrite counter_alter_set. case_decide as Hd.
      * destruct Hd as [-> Hf]. rewrite H2. cbn. intros [= <-].
        right. right. rewrite H2 in Hc. cbn in Hc. rewrite Hf in H3.
        split; [congruence|]. by exists fe.
      * unchanged.
  - destruct (_clients s !! remote_address ws) as [c0|] eqn:Hk.
    + rewrite _handler_exit_registered by (rewrite Hk; eauto).
      unchanged.
    + rewrite _handler_exit_missing by done. unchanged.
  - destruct (decide (f0 ∈ _filters_consumed s)).
    + rewrite add_filter_consumed_known by done. unchanged.
    + rewrite add_filter_consumed_new by done. unchanged.
  - destruct (decide (f0 ∈ _filters_consumed s)).
    + rewrite remove_filter_consumed_known by done. unchanged.
    + rewrite remove_filter_consumed_unknown by done. unchanged.
Qed.

Lemma X10_witness :
  let s := scenario.ws.suspended in
  let e := Resume scenario.alice 0%nat true in
  counter s 0%nat "faces" = Some 2 /\
  counter (state_after (run e) s) 0%nat "faces" = Some 1 /\
  (1 = 2 \/
   (1 = 2 - 1 /\
    exists ws te, e = Resume ws 0%nat true /\ pending s !! 0%nat = Some te /\
                  filter_passed (fc te) = "faces"%string /\
                  to_engines (state_after (run e) s) = to_engines s ++ [te]) \/
   (1 = 2 + 1 /\
    exists fe, e = Produce fe /\
               _clients s !! (fe_host fe, fe_port fe) = Some 0%nat /\
               rw_filter_passed (fe_result_wrapper fe) = "faces"%string)).
Proof.
  intros s e.
  assert (counter s 0%nat "faces" = Some 2) as A by (vm_compute; reflexivity).
  assert (counter (state_after (run e) s) 0%nat "faces" = Some 1) as B
    by (vm_compute; reflexivity).
  split; [exact A|]. split; [exact B|].
  exact (X10_counter_moves_by_one e s 0%nat "faces" 2 1 A B).
Defined.

(** A whole turn that hands its frame to the engines. *)
Lemma accepted_turn ws c raw t s :
  filter_passed raw ∈ _filters_consumed s ->
  counter s c (filter_passed raw) = Some t -> 1 <= t ->
  let s' := state_after (_consumer_iter ws c raw true) s in
  result_of (_consumer_iter ws c raw true) s = Val tt /\
  counter s' c (filter_passed raw) = Some (t - 1) /\
  _filters_consumed s' = _filters_consumed s /\
  to_engines s' = to_engines s ++ [envelope ws raw] /\
  sent s' = sent s /\
  pending s' !! c = None.
Proof.
  intros Hf Hc Ht s'. unfold s', state_after, result_of, _consumer_iter, bind.
  erewrite recv_submits by done.
  erewrite resume_send_succeeded;
    [|cbn; apply lookup_insert_eq|cbn; exact Hc].
  cbn. split; [done|].
  assert (is_Some (heap s !! c)) as [cl Hcl].
  { unfold counter in Hc. destruct (heap s !! c); [eauto|done]. }
  unfold counter. cbn. split.
  { rewrite counter_alter_set, decide_True by done. by rewrite Hcl. }
  split; [done|]. split; [done|]. split; [done|]. apply lookup_delete_eq.
Qed.

Lemma consumer_accepts ws c f (frames : list from_client) : forall s t,
  f ∈ _filters_consumed s ->
  Forall (fun r => filter_passed r = f) frames ->
  counter s c f = Some t -> Z.of_nat (length frames) <= t ->
  pending s !! c = None ->
  let turns := (fun r => (r, true)) <$> frames in
  let s' := state_after (_consumer ws c turns) s in
  result_of (_consumer ws c turns) s = Val tt /\
  counter s' c f = Some (t - Z.of_nat (length frames)) /\
  _filters_consumed s' = _filters_consumed s /\
  to_engines s' = to_engines s ++ (envelope ws <$> frames) /\
  sent s' = sent s /\
  pending s' !! c = None.
Proof.
  induction frames as [|raw frames IH]; intros s t Hf Hfr Hc Hn Hp.
  - cbn. rewrite app_nil_r. repeat split; try done.
    rewrite Hc. f_equal. lia.
  - apply Forall_cons in Hfr as [Hraw Hfr]. subst f.
    unfold _consumer in *. cbn [fmap list_fmap for_each fst snd length].
    destruct (accepted_turn ws c raw t s Hf Hc ltac:(cbn in Hn; lia))
      as (R & C1 & F1 & T1 & S1 & P1).
    unfold state_after, result_of, bind in *.
    destruct (_consumer_iter ws c raw true s) as [r s1]. cbn in *. subst r.
    destruct (IH s1 (t - 1)) as (R' & C2 & F2 & T2 & S2 & P2);
      [by rewrite F1|done|done|lia|done|].
    split; [done|]. split; [rewrite C2; f_equal; lia|].
    split; [by rewrite F2|]. split; [|by rewrite S2].
    rewrite T2, T1. by rewrite <- app_assoc.
Qed.

(** X11.  A client runs out of tokens.  Take a store in which a session
    holds [t] tokens for a consumed filter [f] and its consumer is not
    suspended, and any frames of that filter, no more than [t] of them,
    each of which the transport accepts.  While no result comes back,
    [_consumer] hands every one of them to the engines, one envelope for
    each frame and in the order of arrival, without any message to the
    client, and the counter ends at [t] less the number of frames.  Once
    the frames are as many as [t], any further frame of that filter is
    answered NO_TOKENS, whatever the transport would say, and neither a
    ledger nor the list of frames handed to the engines changes. *)
Theorem X11_tokens_run_out
    (ws : websocket) (c : loc) (f : string) (frames : list from_client)
    (t : Z) (s : server)
    (Hf : f ∈ _filters_consumed s)
    (Hfr : Forall (fun r => filter_passed r = f) frames)
    (Hc : counter s c f = Some t)
    (Hn : Z.of_nat (length frames) <= t)
    (Hp : pending s !! c = None) :
  let turns := (fun r => (r, true)) <$> frames in
  let s1 := state_after (_consumer ws c turns) s in
  result_of (_consumer ws c turns) s = Val tt /\
  counter s1 c f = Some (t - Z.of_nat (length frames)) /\
  to_engines s1 = to_engines s ++ (envelope ws <$> frames) /\
  sent s1 = sent s /\
  (t = Z.of_nat (length frames) ->
   forall raw ok, filter_passed raw = f ->
     let s2 := state_after (_consumer_iter ws c raw ok) s1 in
     result_of (_consumer_iter ws c raw ok) s1 = Val tt /\
     sent s2 = sent s1 ++ [(ws, error_reply raw NO_TOKENS)] /\
     to_engines s2 = to_engines s1 /\
     heap s2 = heap s1).
Proof.
  intros turns s1.
  destruct (consumer_accepts ws c f frames s t Hf Hfr Hc Hn Hp)
    as (R & C1 & F1 & T1 & S1 & P1).
  fold turns in R, C1, F1, T1, S1, P1. fold s1 in C1, F1, T1, S1, P1.
  split; [done|]. split; [done|]. split; [done|]. split; [done|].
  intros -> raw ok <- s2. unfold s2, state_after, result_of.
  replace (Z.of_nat (length frames) - Z.of_nat (length frames)) with 0
    in C1 by lia.
  erewrite iter_no_tokens; [|done|by rewrite F1|exact C1|lia].
  erewrite recv_no_tokens; [|by rewrite F1|exact C1|lia]. done.
Qed.

Lemma X11_witness :
  let s := scenario.ws.faces_then_connected in
  let frames := [scenario.ws.frame 7 "faces"; scenario.ws.frame 8 "faces"] in
  counter s 0%nat "faces" = Some 2 /\
  to_engines (state_after (_consumer scenario.alice 0%nat
                             ((fun r => (r, true)) <$> frames)) s)
  = to_engines s ++ (envelope scenario.alice <$> frames).
Proof.
  intros s frames.
  assert (counter s 0%nat "faces" = Some 2) as A by (vm_compute; reflexivity).
  split; [exact A|].
  destruct (X11_tokens_run_out scenario.alice 0%nat "faces" frames 2 s)
    as (_ & _ & H & _).
  - apply (bool_decide_unpack _). vm_compute. exact I.
  - repeat constructor.
  - exact A.
  - cbn. lia.
  - vm_compute. reflexivity.
  - exact H.
Defined.

End websocket_server_further.

(** * A property of both variants *)

(** X12.  A turn of one client stays with that client.  In both variants a
    turn of the consumer of a session (and, in client_comm, a turn of its
    producer) changes no other session object and no registry entry, and
    every message it sends goes over the websocket of that turn. *)
Theorem X12_turn_touches_one_session :
  (forall ws c raw s,
     let s' := state_after (client_comm.consumer_handler_iter ws c raw) s in
     (forall c', c' <> c -> client_comm.heap s' !! c' = client_comm.heap s !! c') /\
     client_comm.clients s' = client_comm.clients s /\
     exists l, client_comm.sent s' = client_comm.sent s ++ l /\
               Forall (fun m => m.1 = ws) l) /\
  (forall ws c s,
     let s' := state_after (client_comm.producer_handler_iter ws c) s in
     (forall c', c' <> c -> client_comm.heap s' !! c' = client_comm.heap s !! c') /\
     client_comm.clients s' = client_comm.clients s /\
     client_comm.input_queue s' = client_comm.input_queue s /\
     exists l, client_comm.sent s' = client_comm.sent s ++ l /\
               Forall (fun m => m.1 = ws) l) /\
  (forall ws c raw ok s,
     let s' := state_after (websocket_server._consumer_iter ws c raw ok) s in
     (forall c', c' <> c ->
        websocket_server.heap s' !! c' = websocket_server.heap s !! c') /\
     websocket_server._clients s' = websocket_server._clients s /\
     websocket_server._filters_consumed s' = websocket_server._filters_consumed s /\
     exists l, websocket_server.sent s' = websocket_server.sent s ++ l /\
               Forall (fun m => m.1 = ws) l).
Proof.
  split; [|split].
  - intros ws c raw s s'. unfold s', state_after.
    destruct (consumer_cases c raw s) as [H|[[H1 H2]|[(H1&H2&H3)|(H1&H2&H3)]]].
    + rewrite consumer_no_tokens by done. cbn.
      repeat split; try done. eexists; split; [done|]. by repeat constructor.
    + rewrite consumer_engine_unknown by done. cbn.
      repeat split; try done. eexists; split; [done|]. by repeat constructor.
    + rewrite consumer_queue_full by done. cbn.
      repeat split; try done. eexists; split; [done|]. by repeat constructor.
    + rewrite consumer_forwarded by done. cbn.
      split; [intros c' Hne; by rewrite lookup_alter_ne|]. split; [done|].
      exists []. by rewrite app_nil_r.
  - intros ws c s s'. unfold s', state_after,
      client_comm.producer_handler_iter, bind, gets, ret.
    cbn. destruct (client_comm.result_queue (client_comm.heap s !!! c))
      as [|r rest].
    + cbn. repeat split; try done. exists []. by rewrite app_nil_r.
    + cbn. split; [intros c' Hne; by rewrite !lookup_alter_ne|].
      split; [done|]. split; [done|].
      eexists; split; [done|]. by repeat constructor.
  - intros ws c raw ok s s'.
    assert (forall s0,
              let r := websocket_server._consumer_resume ws c ok s0 in
              (forall c', c' <> c ->
                 websocket_server.heap r.2 !! c' = websocket_server.heap s0 !! c') /\
              websocket_server._clients r.2 = websocket_server._clients s0 /\
              websocket_server._filters_consumed r.2
              = websocket_server._filters_consumed s0 /\
              exists l, websocket_server.sent r.2 = websocket_server.sent s0 ++ l /\
                        Forall (fun m => m.1 = ws) l) as Hres.
    { intros s0.
      destruct (resume_cases c s0) as [H|[(te&H1&H2)|(te&t&H1&H2)]]; cbn zeta.
      - rewrite resume_not_suspended by done. cbn.
        repeat split; try done. exists []. by rewrite app_nil_r.
      - destruct ok.
        + erewrite resume_no_counter by done. cbn.
          repeat split; try done. exists []. by rewrite app_nil_r.
        + erewrite resume_send_failed by done. cbn.
          repeat split; try done. eexists; split; [done|]. by repeat constructor.
      - destruct ok.
        + erewrite resume_send_succeeded by done. cbn.
          split; [intros c' Hne; by rewrite lookup_alter_ne|].
          split; [done|]. split; [done|]. exists []. by rewrite app_nil_r.
        + erewrite resume_send_failed by done. cbn.
          repeat split; try done. eexists; split; [done|]. by repeat constructor. }
    unfold s', state_after, websocket_server._consumer_iter, bind.
    destruct (recv_cases c raw s) as [H|[[H1 H2]|[(t&H1&H2&H3)|(t&H1&H2&H3)]]].
    + rewrite recv_no_engine by done.
      match goal with |- context [websocket_server._consumer_resume ws c ok ?s0] =>
        destruct (Hres s0) as (A & B & C & (l & D & E)) end.
      destruct (websocket_server._consumer_resume ws c ok _) as [r s2].
      cbn in *. rewrite B, C, D. repeat split; try done.
      eexists. split; [by rewrite <- app_assoc|]. by constructor.
    + rewrite recv_no_counter by done. cbn.
      repeat split; try done. exists []. by rewrite app_nil_r.
    + erewrite recv_no_tokens by done.
      match goal with |- context [websocket_server._consumer_resume ws c ok ?s0] =>
        destruct (Hres s0) as (A & B & C & (l & D & E)) end.
      destruct (websocket_server._consumer_resume ws c ok _) as [r s2].
      cbn in *. rewrite B, C, D. repeat split; try done.
      eexists. split; [by rewrite <- app_assoc|]. by constructor.
    + erewrite recv_submits by done.
      match goal with |- context [websocket_server._consumer_resume ws c ok ?s0] =>
        destruct (Hres s0) as (A & B & C & (l & D & E)) end.
      destruct (websocket_server._consumer_resume ws c ok _) as [r s2].
      cbn in *. rewrite B, C, D. repeat split; try done. eauto.
Qed.

(** * A result that arrives while the consumer is suspended *)

Section websocket_server_interleaving.

Import websocket_server websocket_server_runs.

(** X13.  No token is lost across the [await].  The consumer of a session
    is suspended in [_send_to_engine] for a frame of filter [f]; a result
    addressed to a registered session arrives.  Whether the dispatch loop
    handles the result before the consumer resumes with a true answer, or
    after it, both run to their end and every ledger, the messages sent,
    the frames handed to the engines and the set of suspended consumers
    come out the same: the decrement of line 118 reads the counter when it
    runs, so a refund made in between is kept even when it is for the same
    session and filter. *)
Theorem X13_refund_during_suspension_is_kept
    (ws : websocket) (c c2 : loc) (te : to_engine) (fe : from_engine)
    (cl cl2 : client) (t t2 : Z) (s : server)
    (Hp : pending s !! c = Some te)
    (Hcl : heap s !! c = Some cl)
    (Ht : tokens_for_filter cl !! filter_passed (fc te) = Some t)
    (Hk : _clients s !! (fe_host fe, fe_port fe) = Some c2)
    (Hcl2 : heap s !! c2 = Some cl2)
    (Ht2 : tokens_for_filter cl2 !! rw_filter_passed (fe_result_wrapper fe)
           = Some t2) :
  let refund_first :=
    state_after (_consumer_resume ws c true)
      (state_after (_producer_iter fe) s) in
  let resume_first :=
    state_after (_producer_iter fe)
      (state_after (_consumer_resume ws c true) s) in
  result_of (_consumer_resume ws c true) (state_after (_producer_iter fe) s)
  = Val tt /\
  result_of (_producer_iter fe) (state_after (_consumer_resume ws c true) s)
  = Val tt /\
  heap refund_first = heap resume_first /\
  sent refund_first = sent resume_first /\
  to_engines refund_first = to_engines resume_first /\
  pending refund_first = pending resume_first /\
  (c2 = c -> rw_filter_passed (fe_result_wrapper fe) = filter_passed (fc te) ->
   counter refund_first c (filter_passed (fc te)) = Some t).
Proof.
  intros refund_first resume_first.
  set (f := filter_passed (fc te)) in *.
  set (l := rw_filter_passed (fe_result_wrapper fe)) in *.
  (* the result first *)
  assert (_producer_iter fe s =
            (Val tt,
             with_sent (sent s ++ [(websocket_ cl2, Result (fe_result_wrapper fe))])
               (with_log (log s ++ [(DEBUG, "Sending to %s"%string)])
                  (with_heap (alter (set_counter l (t2 + 1)) c2 (heap s)) s))))
    as EP by (by apply producer_refund).
  set (sP := state_after (_producer_iter fe) s).
  assert (exists tA, counter sP c f = Some tA /\
                     tA = if decide (c2 = c /\ l = f) then t2 + 1 else t)
    as (tA & HtA & EtA).
  { unfold sP, state_after. rewrite EP. unfold counter. cbn.
    rewrite counter_alter_set. case_decide as Hd.
    - rewrite Hcl2. cbn. eauto.
    - rewrite Hcl. cbn. rewrite Ht. eauto. }
  assert (_consumer_resume ws c true sP =
            (Val tt,
             with_heap (alter (set_counter f (tA - 1)) c (heap sP))
               (with_to_engines (to_engines sP ++ [te])
                  (with_pending (delete c (pending sP)) sP)))) as ER.
  { apply resume_send_succeeded; [|exact HtA].
    unfold sP, state_after. by rewrite EP. }
  (* the consumer first *)
  assert (counter s c f = Some t) as Hcnt.
  { unfold counter. rewrite Hcl. exact Ht. }
  assert (_consumer_resume ws c true s =
            (Val tt,
             with_heap (alter (set_counter f (t - 1)) c (heap s))
               (with_to_engines (to_engines s ++ [te])
                  (with_pending (delete c (pending s)) s)))) as ER'
    by (by apply resume_send_succeeded).
  set (sR := state_after (_consumer_resume ws c true) s).
  assert (exists clB tB,
            heap sR !! c2 = Some clB /\ websocket_ clB = websocket_ cl2 /\
            tokens_for_filter clB !! l = Some tB /\
            tB = if decide (c = c2 /\ f = l) then t - 1 else t2)
    as (clB & tB & HclB & HwB & HtB & EtB).
  { unfold sR, state_after. rewrite ER'. cbn.
    destruct (decide (c = c2)) as [<-|Hne].
    - rewrite lookup_alter_eq, Hcl. cbn.
      assert (cl2 = cl) as -> by congruence.
      destruct (decide (f = l)) as [Hfl|Hfl].
      + exists (set_counter f (t - 1) cl), (t - 1).
        split; [done|]. split; [done|]. cbn. rewrite <- Hfl.
        rewrite lookup_insert_eq. split; [done|]. by rewrite decide_True.
      + exists (set_counter f (t - 1) cl), t2.
        split; [done|]. split; [done|]. cbn.
        rewrite lookup_insert_ne by done. split; [exact Ht2|].
        rewrite decide_False; [done|]. by intros [_ ?].
    - rewrite lookup_alter_ne by done. exists cl2, t2.
      repeat split; try done. rewrite decide_False; [done|]. by intros [? _]. }
  assert (_producer_iter fe sR =
            (Val tt,
             with_sent (sent sR ++ [(websocket_ clB, Result (fe_result_wrapper fe))])
               (with_log (log sR ++ [(DEBUG, "Sending to %s"%string)])
                  (with_heap (alter (set_counter l (tB + 1)) c2 (heap sR)) sR))))
    as EP'.
  { apply producer_refund; [|done|done].
    unfold sR, state_after. by rewrite ER'. }
  unfold refund_first, resume_first, result_of. fold sP sR.
  unfold state_after. rewrite ER, EP'. cbn [fst snd].
  unfold sP, sR, state_after. rewrite EP, ER'. cbn.
  split; [done|]. split; [done|].
  assert (alter (set_counter f (tA - 1)) c (alter (set_counter l (t2 + 1)) c2 (heap s))
          = alter (set_counter l (tB + 1)) c2
              (alter (set_counter f (t - 1)) c (heap s))) as EH.
  { apply map_eq. intros x.
    destruct (decide (c = c2)) as [<-|Hne].
    - destruct (decide (c = x)) as [<-|Hx].
      + rewrite !lookup_alter_eq, Hcl. cbn. f_equal.
        unfold set_counter. cbn. f_equal.
        destruct (decide (f = l)) as [Hfl|Hfl].
        * rewrite decide_True in EtA by done.
          rewrite decide_True in EtB by done.
          assert (t2 = t) as Et.
          { assert (cl2 = cl) as -> by congruence.
            rewrite <- Hfl in Ht2. congruence. }
          rewrite <- Hfl, !insert_insert_eq. f_equal. lia.
        * rewrite decide_False in EtA by (by intros [_ ?]).
          rewrite decide_False in EtB by (by intros [_ ?]).
          subst tA tB. by rewrite insert_insert_ne.
      + by rewrite !lookup_alter_ne.
    - rewrite decide_False in EtA by (by intros [? _]).
      rewrite decide_False in EtB by (by intros [? _]).
      subst tA tB.
      destruct (decide (c = x)) as [<-|Hx].
      + rewrite lookup_alter_eq, lookup_alter_ne by done.
        rewrite lookup_alter_ne by done. by rewrite lookup_alter_eq.
      + rewrite (lookup_alter_ne _ _ c x) by done.
        destruct (decide (c2 = x)) as [<-|Hx2].
        * rewrite !lookup_alter_eq. by rewrite lookup_alter_ne.
        * by rewrite !lookup_alter_ne. }
  split; [exact EH|]. split; [by rewrite HwB|]. split; [done|]. split; [done|].
  intros -> Hlf. unfold counter. cbn. rewrite counter_alter_set.
  rewrite decide_True by done.
  rewrite lookup_alter_eq, Hcl. cbn.
  rewrite decide_True in EtA by done.
  assert (t2 = t) as -> .
  { assert (cl2 = cl) as -> by congruence. unfold l, f in *.
    rewrite Hlf in Ht2. congruence. }
  f_equal. lia.
Qed.

Lemma X13_witness :
  let s := scenario.ws.suspended in
  let fe := scenario.ws.result_for scenario.alice 3 "faces" in
  pending s !! 0%nat = Some (envelope scenario.alice (scenario.ws.frame 7 "faces")) /\
  heap (state_after (_consumer_resume scenario.alice 0%nat true)
          (state_after (_producer_iter fe) s))
  = heap (state_after (_producer_iter fe)
            (state_after (_consumer_resume scenario.alice 0%nat true) s)).
Proof.
  intros s fe.
  assert (pending s !! 0%nat
          = Some (envelope scenario.alice (scenario.ws.frame 7 "faces"))) as A
    by (vm_compute; reflexivity).
  assert (heap s !! 0%nat =
            Some {| tokens_for_filter := {["faces"%string := 2]};
                    websocket_ := scenario.alice |}) as B
    by (vm_compute; reflexivity).
  split; [exact A|].
  destruct (X13_refund_during_suspension_is_kept
              scenario.alice 0%nat 0%nat _ fe
              {| tokens_for_filter := {["faces"%string := 2]};
                 websocket_ := scenario.alice |}
              {| tokens_for_filter := {["faces"%string := 2]};
                 websocket_ := scenario.alice |}
              2 2 s A B)
    as (_ & _ & H & _).
  - vm_compute. reflexivity.
  - vm_compute. reflexivity.
  - exact B.
  - vm_compute. reflexivity.
  - exact H.
Defined.

End websocket_server_interleaving.
